(** * DICOMFetch: query construction, progress parsing and fetch aggregation

    A shallow embedding of [pydcm4che3.py], [queryinterface.py] and
    [structures.py].

    Conventions of the embedding.
    - Python [str] values are [string]s; a line of backend output is read
      character by character as a [list ascii].  Characters are code points
      below 256; the classes [\d], [\s] and [.] are those of Python 3's [re]
      on [str] patterns restricted to that range.
    - Python [int]s are [Z].
    - [**query_map] is an ordered dictionary: an association list in
      insertion order.
    - A generator is described by its complete run: the values it yields, in
      order, and how it finishes (normally, or by raising).
    - Exceptions are values of [exn]; a function that may raise returns a
      sum or carries an [option exn].
    - [print] calls are not modelled.

    Names across the three files.
    - [combo_cmd(cmd)] reads [level] and [query_map], which are neither
      parameters nor locals of it: Python looks them up in the globals of
      the module when the line that reads them runs.  Nothing in
      pydcm4che3.py or structures.py binds either name, so the lookup
      raises [NameError].
    - queryinterface.py declares the namedtuples [CGetResponse] and
      [CStoreResponse] again (lines 19-26), with the names and fields of
      structures.py.  Each declaration makes a class of its own: the line
      parsers of pydcm4che3.py build objects of the classes of
      structures.py, and the tests [type(response) == CGetResponse] and
      [type(response) == CStoreResponse] of [Interface.fetch] hold for
      objects of the classes of queryinterface.py only.  A [response] keeps
      the declaration its class comes from next to its fields.
    - queryinterface.py imports [getter] from pydcm4che3, which defines
      [geter]; where the dispatch of [Interface.fetch] selects [getter],
      the call is written as a call of [geter].  What the loop of
      [Interface.fetch] does is stated for any backend iterator.
    - [aettable] and [dicomweb] are not among the sources: the node table
      is modelled from the spec, the dicomweb functions are parameters. *)

From Stdlib Require Import ZArith Ascii String List Bool Sorted Lia.
From stdpp Require Import base option list strings gmap.

Local Open Scope string_scope.
Local Open Scope list_scope.
Local Open Scope Z_scope.

(** ** structures.py *)

(** [CGetResponse = namedtuple('CGetResponse',
      'pcid, remaining, completed, failed, warning, status')]: the fields.
    The declaration is made in structures.py and again in queryinterface.py;
    which of the two classes an object belongs to is kept by [response]. *)
Record CGetResponse : Type := mkCGetResponse {
  pcid : Z;
  remaining : Z;
  completed : Z;
  failed : Z;
  warning : Z;
  status : Z
}.

(** [CStoreResponse = namedtuple('CStoreResponse', 'pcid, status')].  The
    two field names are prefixed because Rocq projections share one name
    space. *)
Record CStoreResponse : Type := mkCStoreResponse {
  store_pcid : Z;
  store_status : Z
}.

(** What travels on a fetch iterator: an object of one of the two
    namedtuples, of the class that queryinterface.py declares ([Get],
    [Store]) or of the class that structures.py declares ([ParsedGet],
    [ParsedStore]), which is the one the line parsers instantiate. *)
Inductive response : Type :=
| Get (r : CGetResponse)
| Store (r : CStoreResponse)
| ParsedGet (r : CGetResponse)
| ParsedStore (r : CStoreResponse).

(** [response.status], the attribute all these classes have. *)
Definition response_status (r : response) : Z :=
  match r with
  | Get g | ParsedGet g => status g
  | Store s | ParsedStore s => store_status s
  end.

(** The messages of the errors the modelled code raises, by the values
    formatted into them. *)
Inductive message : Type :=
| NotInNodeTable (servername : string)
    (* "%s is not in dicom node table" *)
| NoRetrieveFacility (servername : string)
    (* "%s supports neither direct (c-get) retrieve operations nor ..." *)
| NoQueryFacility (servername : string)
    (* "%s supports neither dicom query (c-find) operations nor ..." *)
| LevelNotSupported (choices : list string)
    (* "the level not supported, the supported choices are {}" *)
| FinalStatusNonZero (status : Z)
    (* "cget final response status non zero (%x)" *)
| QueryFailed (aet output : string) (cmd : list string)
    (* "Query to %s failed: %s, Command line was %s" *)
| CGetFailed (aet : string) (returncode : Z) (cmd : list string).
    (* "C-get from %s failed (%d), Command line was %s" *)

(** The exceptions the modelled code raises.  [QIError] is the class of
    structures.py, [PyException] the builtin [Exception]; a [KeyError]
    carries the missing key ([None] for the Python [None]); a [NameError]
    or [UnboundLocalError] carries the name that is not bound. *)
Inductive exn : Type :=
| QIError (msg : message)
| PyException (msg : message)
| KeyError (key : option string)
| UnboundLocalError (name : string)
| NameError (name : string).

(** The complete run of an iterator: what it yields, then how it ends
    ([None]: exhausted; [Some e]: [e] raised). *)
Record run (Y : Type) : Type := mkRun {
  yielded : list Y;
  finish : option exn
}.
Arguments mkRun {Y} _ _.
Arguments yielded {Y} _.
Arguments finish {Y} _.

(** ** The regular expressions of pydcm4che3.py

    Both patterns are sequences of single characters and of greedy
    repetitions of one character class, some of them captured; there is no
    alternation and no nested quantifier.  The matcher below is the
    backtracking matcher of [re.match] for that fragment: anchored at the
    start of the line, greedy, first success wins, no anchoring at the
    end. *)
Module Re.

Inductive cls : Type :=
| Digit                (* \d *)
| Space                (* \s *)
| Dot                  (* .  *)
| HexDigit             (* [\dA-Fa-f] *)
| Lit (a : ascii).     (* a literal character *)

Definition between (lo hi : N) (a : ascii) : bool :=
  let n := N_of_ascii a in (lo <=? n)%N && (n <=? hi)%N.

Definition is_digit (a : ascii) : bool := between 48 57 a.

(** [str.isspace] on code points below 256. *)
Definition is_space (a : ascii) : bool :=
  between 9 13 a || between 28 32 a
  || (N_of_ascii a =? 133)%N || (N_of_ascii a =? 160)%N.

Definition is_hex (a : ascii) : bool :=
  is_digit a || between 65 70 a || between 97 102 a.

Definition accepts (c : cls) (a : ascii) : bool :=
  match c with
  | Digit => is_digit a
  | Space => is_space a
  | Dot => negb (N_of_ascii a =? 10)%N
  | HexDigit => is_hex a
  | Lit b => (N_of_ascii a =? N_of_ascii b)%N
  end.

Inductive atom : Type :=
| Chr (c : cls)                              (* one character *)
| Rep (c : cls) (lo : nat) (hi : option nat) (* c{lo,hi}, greedy *)
| Cap (c : cls) (lo : nat) (hi : option nat). (* (c{lo,hi}) *)

Definition regex : Type := list atom.

Definition lit (s : string) : regex :=
  map (fun a => Chr (Lit a)) (list_ascii_of_string s).

Definition plus (c : cls) : atom := Rep c 1 None.
Definition star (c : cls) : atom := Rep c 0 None.
Definition group_plus (c : cls) : atom := Cap c 1 None.

Definition may_take (hi : option nat) : bool :=
  match hi with
  | Some O => false
  | _ => true
  end.

Definition dec (hi : option nat) : option nat :=
  match hi with
  | Some n => Some (Nat.pred n)
  | None => None
  end.

Section Matcher.
Context {R : Type}.

(** Greedy repetition: take one more character while the class accepts
    it and the upper bound allows; when what follows fails, give the
    character back.  [taken] holds the characters consumed so far, most
    recent first. *)
Fixpoint greedy (c : cls) (lo : nat) (hi : option nat)
    (taken s : list ascii)
    (k : list ascii -> list ascii -> option R) {struct s} : option R :=
  let stop := match lo with O => k (rev taken) s | S _ => None end in
  match s with
  | a :: s' =>
      if accepts c a && may_take hi then
        match greedy c (Nat.pred lo) (dec hi) (a :: taken) s' k with
        | Some r => Some r
        | None => stop
        end
      else stop
  | [] => stop
  end.
End Matcher.

(** [exec p s caps]: match [p] at the start of [s]; the result is the list
    of captured groups, in pattern order. *)
Fixpoint exec (p : regex) (s : list ascii) (caps : list (list ascii))
    : option (list (list ascii)) :=
  match p with
  | [] => Some (rev caps)
  | Chr c :: p' =>
      match s with
      | a :: s' => if accepts c a then exec p' s' caps else None
      | [] => None
      end
  | Rep c lo hi :: p' => greedy c lo hi [] s (fun _ rest => exec p' rest caps)
  | Cap c lo hi :: p' =>
      greedy c lo hi [] s (fun tk rest => exec p' rest (tk :: caps))
  end.

(** [re.match(r, line)]: [Some groups] for a match object, [None] for
    [None]. *)
Definition re_match (r : regex) (line : string) : option (list (list ascii)) :=
  exec r (list_ascii_of_string line) [].

End Re.

Import Re.

(** The value of one digit in [int(s, base)], for bases up to 16. *)
Definition digit_value (a : ascii) : option Z :=
  let n := Z.of_N (N_of_ascii a) in
  if is_digit a then Some (n - 48)
  else if between 65 70 a then Some (n - 55)
  else if between 97 102 a then Some (n - 87)
  else None.

(** [int(s, base)] on the characters of [s]; [None] stands for the
    [ValueError] of an empty or ill-formed literal. *)
Fixpoint int_from (base acc : Z) (s : list ascii) : option Z :=
  match s with
  | [] => Some acc
  | a :: s' =>
      match digit_value a with
      | Some d => if d <? base then int_from base (acc * base + d) s' else None
      | None => None
      end
  end.

Definition py_int (base : Z) (s : list ascii) : option Z :=
  match s with
  | [] => None
  | _ => int_from base 0 s
  end.

(** [r"\d\d:\d\d:\d\d,[\d]{1,3}\s+INFO\s+.*[\d]+:C-GET-RSP\[pcid=([\d]+),
       \s+completed=([\d]+),\s+failed=([\d]+),\s+warning=([\d]+),
       \s+status=([\dA-Fa-f]{1,4})H.*"] *)
Definition cget_regex : regex :=
  [Chr Digit; Chr Digit] ++ lit ":" ++ [Chr Digit; Chr Digit] ++ lit ":"
  ++ [Chr Digit; Chr Digit] ++ lit "," ++ [Rep Digit 1 (Some 3%nat)]
  ++ [plus Space] ++ lit "INFO" ++ [plus Space]
  ++ [star Dot; plus Digit] ++ lit ":C-GET-RSP[pcid=" ++ [group_plus Digit]
  ++ lit "," ++ [plus Space] ++ lit "completed=" ++ [group_plus Digit]
  ++ lit "," ++ [plus Space] ++ lit "failed=" ++ [group_plus Digit]
  ++ lit "," ++ [plus Space] ++ lit "warning=" ++ [group_plus Digit]
  ++ lit "," ++ [plus Space] ++ lit "status=" ++ [Cap HexDigit 1 (Some 4%nat)]
  ++ lit "H" ++ [star Dot].

(** [r"\d\d:\d\d:\d\d,[\d]{1,3}\s+INFO\s+-\s+.*[\d]+:C-STORE-RSP\[pcid=([\d]+),
       \s+status=([\dA-Fa-f]{1,4})H"] *)
Definition cstore_regex : regex :=
  [Chr Digit; Chr Digit] ++ lit ":" ++ [Chr Digit; Chr Digit] ++ lit ":"
  ++ [Chr Digit; Chr Digit] ++ lit "," ++ [Rep Digit 1 (Some 3%nat)]
  ++ [plus Space] ++ lit "INFO" ++ [plus Space] ++ lit "-" ++ [plus Space]
  ++ [star Dot; plus Digit] ++ lit ":C-STORE-RSP[pcid=" ++ [group_plus Digit]
  ++ lit "," ++ [plus Space] ++ lit "status=" ++ [Cap HexDigit 1 (Some 4%nat)]
  ++ lit "H".

(** [_parse_cget_response(line)].  [m.group(4)] is read twice: once in base
    10 for [warning], once in base 16 for [status]; [m.group(5)] is not
    read.  [remaining] is the constant 0. *)
Definition _parse_cget_response (line : string) : option CGetResponse :=
  match re_match cget_regex line with
  | Some [g1; g2; g3; g4; g5] =>
      pcid ← py_int 10 g1;
      completed ← py_int 10 g2;
      failed ← py_int 10 g3;
      warning ← py_int 10 g4;
      status ← py_int 16 g4;
      let remaining := 0 in
      Some (mkCGetResponse pcid remaining completed failed warning status)
  | _ => None
  end.

(** [_parse_cstore_response(line)]. *)
Definition _parse_cstore_response (line : string) : option CStoreResponse :=
  match re_match cstore_regex line with
  | Some [g1; g2] =>
      pcid ← py_int 10 g1;
      status ← py_int 16 g2;
      Some (mkCStoreResponse pcid status)
  | _ => None
  end.

(** ** pydcm4che3.py: building the command line *)

(** An ordered dictionary with string keys, as a list of items. *)
Fixpoint dict_get {V : Type} (d : list (string * V)) (k : string) : option V :=
  match d with
  | [] => None
  | (k', v) :: d' => if decide (k' = k) then Some v else dict_get d' k
  end.

Definition dict_keys {V : Type} (d : list (string * V)) : list string :=
  map fst d.

Definition level_map : list (string * list (list string)) :=
  [ ("patient", [["-M"; "PatientRoot"]; ["-L"; "PATIENT"]]);
    ("study", [["-M"; "StudyRoot"]; ["-L"; "STUDY"]]);
    ("series", [["-M"; "PatientRoot"]; ["-L"; "SERIES"]]);
    ("image", [["-M"; "PatientRoot"]; ["-L"; "IMAGE"]]) ].

Definition level_required_keys_map : list (string * list string) :=
  [ ("patient", ["PatientName"; "PatientID"; "PatientBirthDate"; "PatientSex"]);
    ("study", ["PatientID"; "StudyID"; "StudyInstanceUID"; "StudyDate";
               "StudyDescription"]);
    ("series", ["PatientID"; "StudyInstanceUID"; "Modality"; "SeriesNumber";
                "SeriesInstanceUID"; "SeriesDescription"; "BodyPartExamined"]);
    ("image", ["PatientID"; "StudyInstanceUID"; "SeriesInstanceUID";
               "InstanceNumber"; "SOPInstanceUID"]) ].

(** [l.remove(k)] for a [k] that is in [l]: the first occurrence goes. *)
Fixpoint list_remove (k : string) (l : list string) : list string :=
  match l with
  | [] => []
  | x :: l' => if decide (x = k) then l' else x :: list_remove k l'
  end.

Definition in_list (k : string) (l : list string) : bool :=
  bool_decide (k ∈ l).

(** ["%s" % k] between double quotes. *)
Definition quoted (k : string) : string :=
  String (ascii_of_nat 34) (k ++ String (ascii_of_nat 34) EmptyString)%string.

(** The two names [combo_cmd] reads without binding them, as the globals
    of the module hold them: [None] for a name that is not bound. *)
Record globals : Type := mkGlobals {
  global_level : option string;
  global_query_map : option (list (string * string))
}.

(** The globals of pydcm4che3.py.  No statement of the module binds
    [level] or [query_map] at top level, and structures.py, imported with
    [*], defines neither; in [finder] and [geter] the two names are
    parameters, local to those functions. *)
Definition module_globals : globals := mkGlobals None None.

Section ComboCmd.
(** [USEQUOTES], a module constant fixed at import time (false on posix). *)
Variable USEQUOTES : bool.

(** One turn of [for k, v in query_map.items()], on the pair
    [(cmd, level_required_keys)].  The return-directive branch ends in
    [continue], before the required key is dropped. *)
Definition combo_item (st : list string * list string) (kv : string * string)
    : list string * list string :=
  let '(cmd, level_required_keys) := st in
  let '(k, v) := kv in
  if decide (v = "") then
    (cmd ++ ["-r"; k], level_required_keys)
  else
    let k := if USEQUOTES then quoted k else k in
    let cmd := cmd ++ ["-m"; (k ++ "=" ++ v)%string] in
    if in_list k level_required_keys
    then (cmd, list_remove k level_required_keys)
    else (cmd, level_required_keys).

(** [combo_cmd(cmd)], run with the globals [g].  [level] is read first, at
    [level_map[level]] (line 222), [query_map] at the head of the second
    loop (line 226); reading a name that is not bound raises
    [NameError]. *)
Definition combo_cmd (g : globals) (cmd : list string) : exn + list string :=
  match global_level g with
  | None => inl (NameError "level")
  | Some level =>
      match dict_get level_map level with
      | None => inl (KeyError (Some level))
      | Some level_args =>
          let cmd := foldl (fun cmd level_arg => cmd ++ level_arg)
                           cmd level_args in
          match dict_get level_required_keys_map level with
          | None => inl (KeyError (Some level))
          | Some level_required_keys =>
              match global_query_map g with
              | None => inl (NameError "query_map")
              | Some query_map =>
                  let '(cmd, level_required_keys) :=
                    foldl combo_item (cmd, level_required_keys) query_map in
                  inr (foldl (fun cmd k => cmd ++ ["-r"; k])
                             cmd level_required_keys)
              end
          end
      end
  end.
End ComboCmd.

(** ** pydcm4che3.py: running the tools *)

(** What a child process started by [_popen_with_pipe] does, as far as the
    callers look at it: the lines it writes on its standard output, its exit
    code, and the result files it leaves in its [--out-dir]. *)
Record process (File : Type) : Type := mkProcess {
  stdout : list string;
  returncode : Z;
  out_files : list File
}.
Arguments mkProcess {File} _ _ _.
Arguments stdout {File} _.
Arguments returncode {File} _.
Arguments out_files {File} _.

(** The module constants of pydcm4che3.py, fixed when the module is loaded,
    and the host it runs on. *)
Record toolkit (File : Type) : Type := mkToolkit {
  FINDSCU : string;
  GETSCU : string;
  CONTEXTS : string;
  USEQUOTES : bool;
  isfile : string -> bool;
  (** [_popen_with_pipe(cmdlist)] run to completion *)
  popen : list string -> process File;
  (** the directory name [mkdtemp(prefix='dcmfetch')] picks, given the
      directories that exist; that the name is new is not assumed, no
      statement below depends on it *)
  mkdtemp : gset string -> string
}.
Arguments mkToolkit {File} _ _ _ _ _ _ _.
Arguments FINDSCU {File} _.
Arguments GETSCU {File} _.
Arguments CONTEXTS {File} _.
Arguments USEQUOTES {File} _.
Arguments isfile {File} _ _.
Arguments popen {File} _ _.
Arguments mkdtemp {File} _ _.

(** ['%s@%s:%s' % (aet, node, port)] *)
Definition connect_spec (aet node port : string) : string :=
  (aet ++ "@" ++ node ++ ":" ++ port)%string.

(** [''.join] of the lines, the text [communicate()[0]] returns. *)
Definition communicate_output (lines : list string) : string :=
  foldr String.append EmptyString lines.

Section Tools.
(** [File]: a result document of findscu; [Record_]: what the parser
    passed to [finder] makes of one. *)
Context {File Record_ : Type}.
Variable tk : toolkit File.

(** [finder(aet, node, port, laet, level, parser, ording_key, **query_map)],
    as a transition on the temporary directories (path to the files
    inside).  [combo_cmd] is called with the command alone and finds its
    two names in the globals of the module.  [sorted_by] stands for
    [sorted(responses, key=attrgetter(ording_key))], which raises when a
    record has no attribute of that name. *)
Definition finder (sorted_by : string -> list Record_ -> exn + list Record_)
    (aet node port laet level : string)
    (parser : File -> list string -> Record_)
    (ording_key : option string) (query_map : list (string * string))
    (fs : gmap string (list File))
    : (exn + list Record_) * gmap string (list File) :=
  let tmpdir := mkdtemp tk (dom fs) in
  let fs := <[tmpdir := []]> fs in
  let find_cmd := [FINDSCU tk] in
  let find_cmd := find_cmd ++ ["--bind"; laet] in
  let find_cmd := find_cmd ++ ["--connect"; connect_spec aet node port] in
  match combo_cmd (USEQUOTES tk) module_globals find_cmd with
  | inl e => (inl e, fs)
  | inr find_cmd =>
      let find_cmd := find_cmd ++ ["-X"; "-I"] in
      let find_cmd := find_cmd ++ ["--out-dir"; tmpdir] in
      let find_cmd := find_cmd ++ ["--out-file"; "match"] in
      let subproc := popen tk find_cmd in
      let fs := <[tmpdir := out_files subproc]> fs in
      let output := communicate_output (stdout subproc) in
      if decide (returncode subproc ≠ 0) then
        (inl (QIError (QueryFailed aet output find_cmd)), fs)
      else
        let responses :=
          map (fun f => parser f (dict_keys query_map))
              (default [] (fs !! tmpdir)) in
        let fs := delete tmpdir fs in
        match ording_key with
        | Some key =>
            if decide (key = "") then (inr responses, fs)
            else (sorted_by key responses, fs)
        | None => (inr responses, fs)
        end
  end.

(** The classification of one line in the loop of [geter]: the c-get
    pattern first, the c-store pattern when that gives [None].  The parsers
    are those of pydcm4che3.py, which instantiate the namedtuples of
    structures.py. *)
Definition geter_line (line : string) : option response :=
  match _parse_cget_response line with
  | Some response => Some (ParsedGet response)
  | None =>
      match _parse_cstore_response line with
      | Some response => Some (ParsedStore response)
      | None => None
      end
  end.

(** [for line in subproc.stdout]: the responses yielded, in order.  The
    counters [linecount] and [responsecount] are written and never read. *)
Fixpoint geter_lines (lines : list string) : list response :=
  match lines with
  | [] => []
  | line :: lines' =>
      match geter_line line with
      | Some response => response :: geter_lines lines'
      | None => geter_lines lines'
      end
  end.

(** [geter(aet, node, port, laet, level, savedir, **query_map)], a
    generator: the body runs when the iterator is first advanced.
    [combo_cmd] is called with the command alone, before the process is
    started; after the last line the exit code is looked at, and a non-zero
    one raises. *)
Definition geter (aet node port laet level savedir : string)
    (query_map : list (string * string)) : run response :=
  let get_cmd := [GETSCU tk] in
  let get_cmd := get_cmd ++ ["--bind"; laet] in
  let get_cmd := get_cmd ++ ["--connect"; connect_spec aet node port] in
  match combo_cmd (USEQUOTES tk) module_globals get_cmd with
  | inl e => mkRun [] (Some e)
  | inr get_cmd =>
      let get_cmd := get_cmd ++ ["--directory"; savedir] in
      let get_cmd :=
        if isfile tk (CONTEXTS tk)
        then get_cmd ++ ["--store-tcs"; CONTEXTS tk]
        else get_cmd in
      let subproc := popen tk get_cmd in
      mkRun (geter_lines (stdout subproc))
            (if decide (returncode subproc ≠ 0)
             then Some (QIError (CGetFailed aet (returncode subproc) get_cmd))
             else None)
  end.
End Tools.

(** ** queryinterface.py *)

(** Modelled from the spec: an entry of the node table (the class is in
    aettable, which is not among the sources), with the attributes the code
    reads: [server.aet], [server.host], [server.port], [server.auth] and
    [server.facilities], a set of one-letter facility markers.  The port is
    kept as the text that ['%s'] prints. *)
Record server (Auth : Type) : Type := mkServer {
  aet : string;
  host : string;
  port : string;
  auth : Auth;
  facilities : gset string
}.
Arguments mkServer {Auth} _ _ _ _ _.
Arguments aet {Auth} _.
Arguments host {Auth} _.
Arguments port {Auth} _.
Arguments auth {Auth} _.
Arguments facilities {Auth} _.

(** Modelled from the spec: [servername in aettable] for the node table
    ([aettable.AetTable] is not among the sources), the Directory of the
    spec, a mapping from server name to descriptor. *)
Definition aettable_contains {Auth : Type} (aettable : gmap string (server Auth))
    (servername : string) : bool :=
  bool_decide (servername ∈ dom aettable).

(** Modelled from the spec: [aettable[servername]] for the same mapping; a
    missing key raises [KeyError], as the subscript of a Python mapping
    does. *)
Definition aettable_getitem {Auth : Type} (aettable : gmap string (server Auth))
    (servername : string) : exn + server Auth :=
  match aettable !! servername with
  | Some server => inr server
  | None => inl (KeyError (Some servername))
  end.

(** The functions the two dispatch tables hold.  [finder] and [getter] are
    the names queryinterface.py imports from pydcm4che3; the others come
    from dicomweb. *)
Inductive backend : Type :=
| rst_pat_level_find
| rst_stu_level_find
| rst_ser_level_find
| rst_img_level_find
| finder_fn
| getter_fn.

Definition query_level_souported : list (string * list (string * backend)) :=
  [ ("W", [ ("patient", rst_pat_level_find); ("study", rst_stu_level_find);
            ("series", rst_ser_level_find); ("image", rst_img_level_find) ]);
    ("F", [ ("patient", finder_fn); ("study", finder_fn);
            ("series", finder_fn); ("image", finder_fn) ]) ].

Definition fetch_level_souported : list (string * list (string * backend)) :=
  [ ("W", [ ("patient", rst_pat_level_find); ("study", rst_stu_level_find);
            ("series", rst_ser_level_find); ("image", rst_img_level_find) ]);
    ("G", [ ("patient", getter_fn); ("study", getter_fn);
            ("series", getter_fn); ("image", getter_fn) ]) ].

(** [table[server_mark][level]], where [server_mark] may be [None]. *)
Definition table_get (table : list (string * list (string * backend)))
    (server_mark : option string) (level : string) : exn + backend :=
  match server_mark with
  | None => inl (KeyError None)
  | Some mark =>
      match dict_get table mark with
      | None => inl (KeyError (Some mark))
      | Some row =>
          match dict_get row level with
          | None => inl (KeyError (Some level))
          | Some f => inr f
          end
      end
  end.

(** One pass of the loop body of [Interface.fetch] over the responses, from
    the current [(completed, remaining)]: the snapshots yielded.  A
    [CGetResponse] overwrites both counters with its own fields, a
    [CStoreResponse] adds one to [completed]; both tests compare
    [type(response)] with the classes declared in queryinterface.py, so an
    object of a class of structures.py passes neither and the loop goes on
    to the next item. *)
Fixpoint fetch_snapshots (c r : Z) (responses : list response)
    : list (Z * Z) :=
  match responses with
  | [] => []
  | Get response :: rest =>
      let c := completed response in
      let r := remaining response in
      (c, r) :: fetch_snapshots c r rest
  | Store _ :: rest =>
      let c := c + 1 in
      (c, r) :: fetch_snapshots c r rest
  | ParsedGet _ :: rest | ParsedStore _ :: rest =>
      fetch_snapshots c r rest
  end.

(** The loop of [Interface.fetch] and the check after it, on the run of
    [fetch_iter], from [completed = 0] and [remaining = -1].  An exception
    of the iterator leaves through the loop; otherwise [response] holds the
    last item, or [None] when there was none. *)
Definition fetch_loop (fetch_iter : run response) : run (Z * Z) :=
  let completed := 0 in
  let remaining := -1 in
  mkRun (fetch_snapshots completed remaining (yielded fetch_iter))
        (match finish fetch_iter with
         | Some e => Some e
         | None =>
             match last (yielded fetch_iter) with
             | None => None
             | Some response =>
                 if decide (response_status response ≠ 0)
                 then Some (QIError (FinalStatusNonZero (response_status response)))
                 else None
             end
         end).

Section Interface.
Context {File Record_ Auth : Type}.

(** A call of a backend function, with its keyword arguments. *)
Inductive invocation : Type :=
| CallWebFind (finder : backend) (endpoint node port : string) (auth : Auth)
    (ording_key : option string) (parser : File -> list string -> Record_)
    (level : string) (query_map : list (string * string))
| CallFind (finder : backend) (aet node port laet : string)
    (ording_key : option string) (parser : File -> list string -> Record_)
    (level : string) (query_map : list (string * string))
| CallWebGet (* rst_ser_level_get *) (endpoint node port : string)
    (auth : Auth) (query_map : list (string * string))
| CallGet (getter : backend) (aet node port laet level savedir : string)
    (query_map : list (string * string)).

(** The backend functions: [finder] is that of pydcm4che3.py, and the
    call of [getter] is written as a call of its [geter]; every other call
    goes to dicomweb, which is outside the modelled sources. *)
Variable tk : toolkit File.
Variable dicomweb_get : invocation -> run response.
Variable dicomweb_find : invocation -> exn + list Record_.
Variable sorted_by : string -> list Record_ -> exn + list Record_.

Definition call_fetch (inv : invocation) : run response :=
  match inv with
  | CallGet getter_fn aet node port laet level savedir query_map =>
      geter tk aet node port laet level savedir query_map
  | _ => dicomweb_get inv
  end.

Definition call_query (inv : invocation) (fs : gmap string (list File))
    : (exn + list Record_) * gmap string (list File) :=
  match inv with
  | CallFind finder_fn aet node port laet ording_key parser level query_map =>
      finder tk sorted_by aet node port laet level parser ording_key
             query_map fs
  | _ => (dicomweb_find inv, fs)
  end.

(** [self.aettable] and [self.localaet]. *)
Variable aettable : gmap string (server Auth).
Variable localaet : string.

Definition has (mark : string) (s : server Auth) : bool :=
  bool_decide (mark ∈ facilities s).

(** [Interface.fetch] up to the backend call: the error raised before
    any call, or the call made. *)
Definition fetch_select (servername level save_dir : string)
    (query_map : list (string * string)) : exn + invocation :=
  if negb (aettable_contains aettable servername) then
    inl (QIError (NotInNodeTable servername))
  else
    match aettable_getitem aettable servername with
    | inl e => inl e
    | inr server =>
        let server_mark :=
          if has "W" server then Some "W"
          else if has "G" server then Some "G"
          else None in
        match table_get fetch_level_souported server_mark level with
        | inl e => inl e
        | inr getter =>
            if bool_decide (server_mark = Some "W") then
              inr (CallWebGet (aet server) (host server) (port server)
                              (auth server) query_map)
            else if bool_decide (server_mark = Some "G") then
              inr (CallGet getter (aet server) (host server) (port server)
                           localaet level save_dir query_map)
            else inl (QIError (NoRetrieveFacility servername))
        end
    end.

(** [Interface.fetch(servername, level, save_dir, **query_map)]. *)
Definition fetch (servername level save_dir : string)
    (query_map : list (string * string)) : run (Z * Z) :=
  match fetch_select servername level save_dir query_map with
  | inl e => mkRun [] (Some e)
  | inr inv => fetch_loop (call_fetch inv)
  end.

(** [Interface.query] up to the backend call.  The node table is
    subscripted first; the membership test comes after the facilities
    have been read. *)
Definition query_select (servername level : string)
    (parser : File -> list string -> Record_) (ording_key : option string)
    (query_map : list (string * string)) : exn + invocation :=
  match aettable_getitem aettable servername with
  | inl e => inl e
  | inr server =>
      let server_mark :=
        if has "W" server then Some "W"
        else if has "F" server then Some "F"
        else None in
      if negb (aettable_contains aettable servername) then
        inl (PyException (NotInNodeTable servername))
      else
        match server_mark with
        | None => inl (UnboundLocalError "server_mark")
        | Some mark =>
            match dict_get query_level_souported mark with
            | None => inl (KeyError (Some mark))
            | Some row =>
                if negb (in_list level (dict_keys row)) then
                  inl (PyException (LevelNotSupported (dict_keys row)))
                else
                  match table_get query_level_souported server_mark level with
                  | inl e => inl e
                  | inr finder =>
                      if bool_decide (mark = "W") then
                        inr (CallWebFind finder (aet server) (host server)
                               (port server) (auth server) ording_key
                               parser level query_map)
                      else if bool_decide (mark = "F") then
                        inr (CallFind finder (aet server) (host server)
                               (port server) localaet ording_key parser
                               level query_map)
                      else inl (PyException (NoQueryFacility servername))
                  end
            end
        end
  end.

(** [Interface.query(servername, level, parser, ording_key, **query_map)]
    on the temporary directories. *)
Definition query (servername level : string)
    (parser : File -> list string -> Record_) (ording_key : option string)
    (query_map : list (string * string)) (fs : gmap string (list File))
    : (exn + list Record_) * gmap string (list File) :=
  match query_select servername level parser ording_key query_map with
  | inl e => (inl e, fs)
  | inr inv =>
      match call_query inv fs with
      | (inl e, fs) => (inl e, fs)
      | (inr res, fs) =>
          match ording_key with
          | Some key =>
              if decide (key = "") then (inr res, fs)
              else (sorted_by key res, fs)
          | None => (inr res, fs)
          end
      end
  end.

End Interface.

(** * Predicates and fixtures used by the statements *)

(** The hierarchy levels: the keys of [level_map]. *)
Definition is_level (level : string) : Prop := level ∈ dict_keys level_map.

(** The [completed] fields carried by the [CGetResponse]s of a stream, in
    arrival order.  The responses are those of the classes [Interface.fetch]
    tests for. *)
Fixpoint retrieve_completed (responses : list response) : list Z :=
  match responses with
  | [] => []
  | Get g :: rest => completed g :: retrieve_completed rest
  | _ :: rest => retrieve_completed rest
  end.

(** Every [CGetResponse] carries a [completed] field that is at least the
    count held when it arrives: [c] at the start, one more after each
    [CStoreResponse], the field of the last [CGetResponse] after one. *)
Fixpoint retrieve_covers (c : Z) (responses : list response) : Prop :=
  match responses with
  | [] => True
  | Get g :: rest => c <= completed g /\ retrieve_covers (completed g) rest
  | Store _ :: rest => retrieve_covers (c + 1) rest
  | _ :: rest => retrieve_covers c rest
  end.

(** Lines of getscu output. *)
Definition store_line_ok : string :=
  "23:00:36,845 INFO  - FINDSCU->CRICStore(1) << 4:C-STORE-RSP[pcid=1, status=0H".
Definition get_line_done : string :=
  "23:00:36,960 INFO  - FINDSCU->CRICStore(1) >> 1:C-GET-RSP[pcid=1, completed=2, failed=0, warning=0, status=0H".
Definition get_line_1A : string :=
  "23:00:36,960 INFO  - FINDSCU->CRICStore(1) >> 1:C-GET-RSP[pcid=1, completed=3, failed=0, warning=0, status=1AH".

(** The capture groups of a pattern, in order: class and bounds. *)
Fixpoint groups_of (p : regex) : list (cls * nat * option nat) :=
  match p with
  | [] => []
  | Cap c lo hi :: p' => (c, lo, hi) :: groups_of p'
  | _ :: p' => groups_of p'
  end.

Definition within (hi : option nat) (n : nat) : Prop :=
  match hi with
  | Some h => (n <= h)%nat
  | None => True
  end.

(** A captured text fits its group: every character is in the class and the
    length is within the bounds. *)
Definition fits (spec : cls * nat * option nat) (g : list ascii) : Prop :=
  let '(c, lo, hi) := spec in
  Forall (fun a => accepts c a = true) g /\ (lo <= length g)%nat
  /\ within hi (length g).

(** The lines of a pattern, declaratively: [matches p s gs rest] when a
    prefix of [s] is in the language of [p], with captured texts [gs] and
    [rest] left over. *)
Inductive matches : regex -> list ascii -> list (list ascii) -> list ascii
                    -> Prop :=
| matches_end s : matches [] s [] s
| matches_chr c a p s gs rest :
    accepts c a = true -> matches p s gs rest ->
    matches (Chr c :: p) (a :: s) gs rest
| matches_rep c lo hi p tk s gs rest :
    Forall (fun a => accepts c a = true) tk -> (lo <= length tk)%nat ->
    within hi (length tk) -> matches p s gs rest ->
    matches (Rep c lo hi :: p) (tk ++ s) gs rest
| matches_cap c lo hi p tk s gs rest :
    Forall (fun a => accepts c a = true) tk -> (lo <= length tk)%nat ->
    within hi (length tk) -> matches p s gs rest ->
    matches (Cap c lo hi :: p) (tk ++ s) (tk :: gs) rest.

(** A posix host on which every tool run prints [lines], exits with [code]
    and leaves [files] in its output directory. *)
Definition host_with (lines : list string) (code : Z) (files : list string)
    : toolkit string :=
  mkToolkit "findscu" "getscu" "store-tcs.properties" false (fun _ => false)
            (fun _ => mkProcess lines code files) (fun _ => "/tmp/dcmfetch0").

Definition pacs_server : server (option string) :=
  mkServer "PACSAET" "pacs.example" "11112" None {[ "F"; "G" ]}.
Definition web_server : server (option string) :=
  mkServer "wado" "web.example" "8080" None {[ "W"; "G" ]}.

Definition node_table : gmap string (server (option string)) :=
  <["WebPACS" := web_server]> {["PACS" := pacs_server]}.

(** A dicomweb that yields nothing and finds nothing. *)
Definition idle_get : @invocation string string (option string) -> run response :=
  fun _ => mkRun [] None.
Definition idle_find : @invocation string string (option string)
                       -> exn + list string :=
  fun _ => inr [].

(** A result document is parsed to itself; sorting keeps the order. *)
Definition text_parser (f : string) (tags : list string) : string := f.
Definition keep_order (key : string) (l : list string)
    : exn + list string := inr l.

(** Decidable side conditions on closed terms, settled by evaluation. *)
Ltac by_evaluation :=
  apply (bool_decide_eq_true_1 _); vm_compute; reflexivity.

(** The line begins with a decimal digit. *)
Definition starts_with_digit (line : string) : bool :=
  match line with
  | String a _ => is_digit a
  | EmptyString => false
  end.

(** A response of a class of structures.py, as the line parsers build
    them. *)
Definition is_parsed (response : response) : Prop :=
  match response with
  | ParsedGet _ | ParsedStore _ => True
  | _ => False
  end.

Definition is_store (response : response) : Prop :=
  match response with
  | Store _ => True
  | _ => False
  end.

(** A server with the find tool only. *)
Definition find_only_server : server (option string) :=
  mkServer "ARCHIVE" "archive.example" "104" None {[ "F" ]}.

(** A server with the web and the find facility, and one with the get tool
    only. *)
Definition both_server : server (option string) :=
  mkServer "BOTH" "both.example" "8080" (Some "token") {[ "W"; "F" ]}.
Definition get_only_server : server (option string) :=
  mkServer "STORE" "store.example" "104" None {[ "G" ]}.

(** The rows of [query_level_souported]. *)
Definition web_find_row : list (string * backend) :=
  [("patient", rst_pat_level_find); ("study", rst_stu_level_find);
   ("series", rst_ser_level_find); ("image", rst_img_level_find)].

Definition tool_find_row : list (string * backend) :=
  [("patient", finder_fn); ("study", finder_fn);
   ("series", finder_fn); ("image", finder_fn)].

(** ** queryinterface.py: [Interface.__init__] *)





(** ** pydcm4che3.py: [Parser.tag_parser] *)

(** An element of the parsed document: tag, attributes, text and
    children, as [xml.etree.ElementTree] gives them. *)
#[local] Unset Elimination Schemes.
Inductive element : Type :=
| Element (tag : string) (attrib : list (string * string))
    (text : option string) (children : list element).
#[local] Set Elimination Schemes.

Definition element_tag (e : element) : string :=
  match e with Element tag _ _ _ => tag end.
Definition element_text (e : element) : option string :=
  match e with Element _ _ text _ => text end.
Definition element_children (e : element) : list element :=
  match e with Element _ _ _ children => children end.

(** [e.get(key)] *)
Definition element_get (e : element) (key : string) : option string :=
  match e with Element _ attrib _ _ => dict_get attrib key end.

(** [e.findall(tag)]: the direct children with that tag, in document
    order. *)
Definition findall (e : element) (tag : string) : list element :=
  filter (fun c => element_tag c = tag) (element_children e).

(** [e.find(tag)]: the first of them, or [None]. *)
Definition find (e : element) (tag : string) : option element :=
  head (findall e tag).

(** [e.find('PersonName').find('Alphabetic').find('FamilyName')]; [None]
    stands for the [AttributeError] raised when one of the three is
    missing. *)
Definition family_name (e : element) : option element :=
  p ← find e "PersonName"; a ← find p "Alphabetic"; find a "FamilyName".

(** The error [tag_parser] raises on a [None]. *)
Inductive tag_error : Type := AttributeError.

(** The body of the loop of [tag_parser] for one [DicomAttribute]. *)
Definition tag_step (tags : list string) (_tags : gmap string (option string))
    (e : element) : tag_error + gmap string (option string) :=
  let tag := element_get e "keyword" in
  match
    (if decide (tag = Some "PatientName") then
       match family_name e with
       | Some val => inr (<["PatientName" := element_text val]> _tags)
       | None => inl AttributeError
       end
     else inr _tags)
  with
  | inl err => inl err
  | inr _tags =>
      match tag with
      | Some tag =>
          if in_list tag tags then
            match find e "Value" with
            | Some val => inr (<[tag := element_text val]> _tags)
            | None => inr _tags
            end
          else inr _tags
      | None => inr _tags
      end
  end.

Fixpoint tag_loop (tags : list string) (_tags : gmap string (option string))
    (es : list element) : tag_error + gmap string (option string) :=
  match es with
  | [] => inr _tags
  | e :: rest =>
      match tag_step tags _tags e with
      | inl err => inl err
      | inr _tags => tag_loop tags _tags rest
      end
  end.

(** [Parser.tag_parser(xmlfile, tags)], on the root element of the parsed
    file. *)
Definition tag_parser (root : element) (tags : list string)
    : tag_error + gmap string (option string) :=
  tag_loop tags ∅ (findall root "DicomAttribute").

(** The keyword of a [DicomAttribute]. *)
Definition keyword (e : element) : option string := element_get e "keyword".

(** The texts of the [Value] children of the attributes with keyword [k],
    in document order. *)
Definition values_of (k : string) (es : list element)
    : list (option string) :=
  omap (fun e => if decide (keyword e = Some k)
                 then element_text <$> find e "Value" else None) es.

(** ** pydcm4che3.py: [_which] *)

Inductive os_name : Type := posix | nt | other_os.

(** The host as [_which] sees it: [os.name], [os.pathsep], [isfile],
    [os.access(_, os.X_OK)], whether [split(program)] has a directory part,
    [join], [abspath] and [os.environ["PATH"]]. *)
Record paths : Type := mkPaths {
  os : os_name;
  pathsep : ascii;
  path_isfile : string -> bool;
  access_x : string -> bool;
  has_dirname : string -> bool;
  path_join : string -> string -> string;
  abspath : string -> string;
  environ_PATH : string
}.

(** ['.'.join([fpath, ext])] *)
Definition dot_join (fpath ext : string) : string :=
  (fpath ++ "." ++ ext)%string.

(** [s.split(sep)] for a one-character separator. *)
Fixpoint py_split (sep : ascii) (s : string) : list string :=
  match s with
  | EmptyString => [EmptyString]
  | String a rest =>
      if Ascii.eqb a sep then EmptyString :: py_split sep rest
      else match py_split sep rest with
           | piece :: pieces => String a piece :: pieces
           | [] => [String a EmptyString]
           end
  end.

Fixpoint lstrip_quotes (s : string) : string :=
  match s with
  | String a rest =>
      if Ascii.eqb a (ascii_of_nat 34) then lstrip_quotes rest else s
  | EmptyString => EmptyString
  end.

Fixpoint rstrip_quotes (s : string) : string :=
  match s with
  | String a rest =>
      match rstrip_quotes rest with
      | EmptyString =>
          if Ascii.eqb a (ascii_of_nat 34) then EmptyString
          else String a EmptyString
      | rest' => String a rest'
      end
  | EmptyString => EmptyString
  end.

(** [path.strip] of the double quote: at both ends, as many as there
    are. *)
Definition strip_quotes (s : string) : string :=
  rstrip_quotes (lstrip_quotes s).

Section Which.
Variable h : paths.

(** The inner [is_executable(fpath)]; on another system it returns [None],
    which counts as false. *)
Definition is_executable (fpath : string) : bool :=
  match os h with
  | posix => path_isfile h fpath && access_x h fpath
  | nt => existsb (fun ext => path_isfile h (dot_join fpath ext)) ["exe"; "bat"]
  | other_os => false
  end.

(** The inner [executable_name(fpath)]; it is only called on a path that
    [is_executable] accepts, where the list it takes the head of is not
    empty. *)
Definition executable_name (fpath : string) : option string :=
  match os h with
  | posix => Some fpath
  | nt => head (filter (fun p => path_isfile h p = true)
                       (map (dot_join fpath) ["exe"; "bat"]))
  | other_os => None
  end.

(** The [for path in ...] loop of [_which]. *)
Fixpoint which_search (program : string) (dirs : list string)
    : option string :=
  match dirs with
  | [] => None
  | path :: rest =>
      let path := strip_quotes path in
      let executable_file := path_join h path program in
      if is_executable executable_file
      then abspath h <$> executable_name executable_file
      else which_search program rest
  end.

(** [_which(program, path_prepend)] *)
Definition _which (program : string) (path_prepend : option (list string))
    : option string :=
  let path_prepend := default [] path_prepend in
  if has_dirname h program then
    if is_executable program
    then abspath h <$> executable_name program
    else None
  else
    which_search program
      (path_prepend ++ py_split (pathsep h) (environ_PATH h)).
End Which.

(** A posix host with the given executables and search path. *)
Definition posix_paths (executables : list string) (search_path : string)
    : paths :=
  mkPaths posix ":" (fun p => in_list p executables) (fun _ => true)
          (fun _ => false)
          (fun dir name => (dir ++ "/" ++ name)%string) (fun p => p)
          search_path.

(** A result document of findscu: a patient name, a study date, and a study
    id without value. *)
Definition study_document : element :=
  Element "NativeDicomModel" [] None
    [ Element "DicomAttribute" [("keyword", "PatientName"); ("vr", "PN")] None
        [ Element "PersonName" [("number", "1")] None
            [ Element "Alphabetic" [] None
                [ Element "FamilyName" [] (Some "DOE") [] ] ] ];
      Element "DicomAttribute" [("keyword", "StudyDate"); ("vr", "DA")] None
        [ Element "Value" [("number", "1")] (Some "20180205") [] ];
      Element "DicomAttribute" [("keyword", "StudyID"); ("vr", "SH")] None [] ].

Definition study_tags : gmap string (option string) :=
  <["StudyDate" := Some "20180205"]> (<["PatientName" := Some "DOE"]> ∅).

(** * Properties *)

(** ** The aggregation loop of [Interface.fetch] *)


(** The first snapshot is never below the count before it when the stream
    covers that count. *)
Lemma fetch_snapshots_head c r responses :
  retrieve_covers c responses ->
  HdRel Z.le c (map fst (fetch_snapshots c r responses)).
Proof.
  revert c r.
  induction responses as [|[g|s|g|s] rest IH]; intros c r; simpl.
  - constructor.
  - intros [Hle _]. constructor. exact Hle.
  - intros _. constructor. lia.
  - apply IH.
  - apply IH.
Qed.

Lemma fetch_snapshots_sorted c r responses :
  retrieve_covers c responses ->
  Sorted Z.le (map fst (fetch_snapshots c r responses)).
Proof.
  revert c r.
  induction responses as [|[g|s|g|s] rest IH]; intros c r; simpl.
  - constructor.
  - intros [_ Hrest]. constructor.
    + apply IH, Hrest.
    + apply fetch_snapshots_head, Hrest.
  - intros Hrest. constructor.
    + apply IH, Hrest.
    + apply fetch_snapshots_head, Hrest.
  - apply IH.
  - apply IH.
Qed.

(** The converse, with the starting count put in front of the snapshots:
    [retrieve_covers] is exactly what monotonicity needs. *)
Lemma fetch_snapshots_sorted_inv c r responses :
  Sorted Z.le (c :: map fst (fetch_snapshots c r responses)) ->
  retrieve_covers c responses.
Proof.
  revert c r.
  induction responses as [|[g|s|g|s] rest IH]; intros c r; simpl.
  - trivial.
  - intros H. inversion H as [|? ? Hs Hh]; subst.
    inversion Hh; subst. split; [assumption|].
    eapply IH. exact Hs.
  - intros H. inversion H as [|? ? Hs Hh]; subst.
    eapply IH. exact Hs.
  - apply IH.
  - apply IH.
Qed.

(** A covered stream has non-decreasing [completed] fields: the condition
    of [retrieve_covers] is a restriction of plain monotonicity of the
    fields. *)
Lemma retrieve_covers_fields c responses :
  retrieve_covers c responses ->
  Sorted Z.le (c :: retrieve_completed responses).
Proof.
  revert c. induction responses as [|[g|s|g|s] rest IH]; intros c; simpl.
  - repeat constructor.
  - intros [Hle Hrest]. constructor; [apply IH, Hrest|]. constructor. exact Hle.
  - intros Hrest. specialize (IH _ Hrest).
    inversion IH as [|? ? Hs Hh]; subst. constructor; [exact Hs|].
    inversion Hh; subst; constructor. lia.
  - apply IH.
  - apply IH.
Qed.


(** The loop yields nothing for objects of the classes of structures.py,
    whatever the counters. *)
Lemma fetch_snapshots_parsed responses :
  Forall is_parsed responses ->
  forall c r, fetch_snapshots c r responses = [].
Proof.
  induction 1 as [|[g|s|g|s] rest Hx _ IH]; intros c r; simpl;
    first [reflexivity | contradiction | apply IH].
Qed.

(** ** The matcher and the two line parsers *)

Lemma greedy_spec {R : Type} c lo hi taken s
    (k : list ascii -> list ascii -> option R) (r : R) :
  greedy c lo hi taken s k = Some r ->
  exists tk rest,
    s = tk ++ rest /\ Forall (fun a => accepts c a = true) tk
    /\ (lo <= length tk)%nat /\ within hi (length tk)
    /\ k (rev taken ++ tk) rest = Some r.
Proof.
  revert lo hi taken.
  assert (Hstop : forall lo hi taken s,
    match lo with O => k (rev taken) s | S _ => None end = Some r ->
    exists tk rest,
      s = tk ++ rest /\ Forall (fun a => accepts c a = true) tk
      /\ (lo <= length tk)%nat /\ within hi (length tk)
      /\ k (rev taken ++ tk) rest = Some r).
  { intros lo hi taken s0 H. destruct lo; [|discriminate].
    exists [], s0. rewrite app_nil_r. repeat split; auto.
    destruct hi; simpl; lia. }
  induction s as [|a s' IH]; intros lo hi taken; cbn [greedy].
  - apply Hstop.
  - destruct (accepts c a && may_take hi) eqn:Hok; [|apply Hstop].
    apply andb_true_iff in Hok as [Hacc Hmay].
    destruct (greedy c (Nat.pred lo) (dec hi) (a :: taken) s' k) as [r'|] eqn:Hg.
    + intros [= ->]. apply IH in Hg as (tk & rest & -> & Hall & Hlo & Hhi & Hk).
      exists (a :: tk), rest. repeat split.
      * constructor; assumption.
      * simpl. lia.
      * destruct hi as [[|h]|]; simpl in *; try discriminate; lia.
      * simpl in Hk. rewrite <- app_assoc in Hk. exact Hk.
    + apply Hstop.
Qed.

Lemma exec_groups p : forall s caps gs,
  exec p s caps = Some gs ->
  exists gs', gs = rev caps ++ gs' /\ Forall2 fits (groups_of p) gs'.
Proof.
  induction p as [|[c|c lo hi|c lo hi] p' IH]; intros s caps gs; cbn [exec groups_of].
  - intros [= <-]. exists []. rewrite app_nil_r. split; [reflexivity|constructor].
  - destruct s as [|a s']; [discriminate|].
    destruct (accepts c a); [|discriminate]. apply IH.
  - intros H. apply greedy_spec in H as (tk & rest & _ & _ & _ & _ & Hk).
    eapply IH. exact Hk.
  - intros H. apply greedy_spec in H as (tk & rest & _ & Hall & Hlo & Hhi & Hk).
    apply IH in Hk as (gs' & -> & Hfits).
    exists (tk :: gs'). split.
    + simpl. rewrite <- app_assoc. reflexivity.
    + constructor; [|exact Hfits]. repeat split; assumption.
Qed.

(** What the matcher returns is a match. *)
Lemma exec_sound p : forall s caps gs,
  exec p s caps = Some gs ->
  exists gs' rest, gs = rev caps ++ gs' /\ matches p s gs' rest.
Proof.
  induction p as [|[c|c lo hi|c lo hi] p' IH]; intros s caps gs; cbn [exec].
  - intros [= <-]. exists [], s. rewrite app_nil_r. split; constructor.
  - destruct s as [|a s']; [discriminate|].
    destruct (accepts c a) eqn:Ha; [|discriminate].
    intros H. apply IH in H as (gs' & rest & -> & Hm).
    exists gs', rest. split; [reflexivity|]. constructor; assumption.
  - intros H. apply greedy_spec in H as (tk & s' & -> & Hall & Hlo & Hhi & Hk).
    apply IH in Hk as (gs' & rest & -> & Hm).
    exists gs', rest. split; [reflexivity|]. constructor; assumption.
  - intros H. apply greedy_spec in H as (tk & s' & -> & Hall & Hlo & Hhi & Hk).
    apply IH in Hk as (gs' & rest & -> & Hm).
    exists (tk :: gs'), rest. split.
    + simpl. rewrite <- app_assoc. reflexivity.
    + constructor; assumption.
Qed.

(** The repetition finds a split whenever one exists. *)
Lemma greedy_complete {R : Type} c
    (k : list ascii -> list ascii -> option R) tk : forall lo hi taken rest,
  Forall (fun a => accepts c a = true) tk -> (lo <= length tk)%nat ->
  within hi (length tk) -> is_Some (k (rev taken ++ tk) rest) ->
  is_Some (greedy c lo hi taken (tk ++ rest) k).
Proof.
  induction tk as [|a tk' IH]; intros lo hi taken rest Hall Hlo Hhi Hk.
  - simpl in Hlo. assert (lo = O) as -> by lia.
    rewrite app_nil_r in Hk. simpl.
    destruct rest as [|b rest']; cbn [greedy]; [exact Hk|].
    destruct (accepts c b && may_take hi); [|exact Hk].
    destruct (greedy c _ _ _ rest' k); [eauto|exact Hk].
  - inversion Hall as [|? ? Ha Hall']; subst. cbn [app greedy].
    rewrite Ha.
    assert (may_take hi = true) as ->.
    { destruct hi as [[|h]|]; simpl in *; [lia|reflexivity|reflexivity]. }
    cbn [andb].
    destruct (IH (Nat.pred lo) (dec hi) (a :: taken) rest Hall') as [r ->].
    + simpl in Hlo. lia.
    + destruct hi as [h|]; simpl in *; [lia|exact I].
    + simpl. rewrite <- app_assoc. exact Hk.
    + eauto.
Qed.

(** The matcher succeeds on every line that has a match. *)
Lemma exec_complete p s gs rest :
  matches p s gs rest -> forall caps, is_Some (exec p s caps).
Proof.
  induction 1 as [s|c a p s gs rest Ha _ IH
                  |c lo hi p tk s gs rest Hall Hlo Hhi _ IH
                  |c lo hi p tk s gs rest Hall Hlo Hhi _ IH];
    intros caps; cbn [exec].
  - eauto.
  - rewrite Ha. apply IH.
  - apply greedy_complete; auto.
  - apply greedy_complete; auto.
Qed.

Lemma digit_value_digit a :
  accepts Digit a = true -> exists d, digit_value a = Some d /\ 0 <= d < 10.
Proof.
  destruct a as [[] [] [] [] [] [] [] []]; intros H; vm_compute in H;
    try discriminate H; clear H; eexists; (split; [vm_compute; reflexivity|lia]).
Qed.

Lemma digit_value_hex a :
  accepts HexDigit a = true -> exists d, digit_value a = Some d /\ 0 <= d < 16.
Proof.
  destruct a as [[] [] [] [] [] [] [] []]; intros H; vm_compute in H;
    try discriminate H; clear H; eexists; (split; [vm_compute; reflexivity|lia]).
Qed.

Lemma int_from_total base c s acc :
  (forall a, accepts c a = true ->
             exists d, digit_value a = Some d /\ 0 <= d < base) ->
  Forall (fun a => accepts c a = true) s ->
  0 <= acc ->
  exists n, int_from base acc s = Some n /\ 0 <= n.
Proof.
  intros Hdig Hall. revert acc.
  induction Hall as [|a s' Ha _ IH]; intros acc Hacc; simpl.
  - eauto.
  - destruct (Hdig a Ha) as (d & -> & Hd).
    destruct (Z.ltb_spec d base); [|lia]. apply IH.
    assert (0 <= acc * base) by (apply Z.mul_nonneg_nonneg; lia). lia.
Qed.

(** [int] does not fail on the text of a group of digits. *)
Lemma py_int_total base c lo hi g :
  (forall a, accepts c a = true ->
             exists d, digit_value a = Some d /\ 0 <= d < base) ->
  (1 <= lo)%nat -> fits (c, lo, hi) g ->
  exists n, py_int base g = Some n /\ 0 <= n.
Proof.
  intros Hdig Hlo (Hall & Hlen & _).
  destruct g as [|a g']; [simpl in Hlen; lia|].
  unfold py_int. eapply int_from_total; eauto. lia.
Qed.

Lemma digit_as_hex a :
  accepts Digit a = true -> exists d, digit_value a = Some d /\ 0 <= d < 16.
Proof. intros H. destruct (digit_value_digit a H) as (d & ? & ?). exists d. split; [assumption|lia]. Qed.

(** What a successful [_parse_cget_response] did: the five groups, and
    which group each field was read from. *)
Lemma parse_cget_inv line g :
  _parse_cget_response line = Some g ->
  exists g1 g2 g3 g4 g5,
    re_match cget_regex line = Some [g1; g2; g3; g4; g5]
    /\ py_int 10 g1 = Some (pcid g) /\ py_int 10 g2 = Some (completed g)
    /\ py_int 10 g3 = Some (failed g) /\ py_int 10 g4 = Some (warning g)
    /\ py_int 16 g4 = Some (status g) /\ remaining g = 0.
Proof.
  unfold _parse_cget_response.
  destruct (re_match cget_regex line)
    as [[|g1 [|g2 [|g3 [|g4 [|g5 [|? ?]]]]]]|]; try discriminate.
  intros H. simplify_option_eq.
  exists g1, g2, g3, g4, g5. repeat split; assumption.
Qed.

(** The parser gives a response exactly on the lines the pattern matches:
    the conversions never fail on matched text. *)
Lemma parse_cget_matches line :
  is_Some (_parse_cget_response line) <-> is_Some (re_match cget_regex line).
Proof.
  split.
  - intros [g Hg]. apply parse_cget_inv in Hg as (? & ? & ? & ? & ? & -> & _).
    eauto.
  - intros [gs Hgs]. unfold _parse_cget_response. rewrite Hgs.
    unfold re_match in Hgs. apply exec_groups in Hgs as (gs' & -> & Hfits).
    simpl. change (groups_of cget_regex) with
      [(Digit, 1%nat, @None nat); (Digit, 1%nat, None); (Digit, 1%nat, None);
       (Digit, 1%nat, None); (HexDigit, 1%nat, Some 4%nat)] in Hfits.
    repeat match goal with
           | H : Forall2 _ (_ :: _) _ |- _ =>
               apply Forall2_cons_inv_l in H as (? & ? & ? & H & ->)
           | H : Forall2 _ [] _ |- _ => apply Forall2_nil_inv_l in H as ->
           end.
    repeat match goal with
           | H : fits (Digit, ?lo, ?hi) ?g |- _ =>
               let H10 := fresh in let H16 := fresh in
               pose proof (py_int_total 10 Digit lo hi g digit_value_digit
                             ltac:(lia) H) as (? & H10 & _);
               pose proof (py_int_total 16 Digit lo hi g digit_as_hex
                             ltac:(lia) H) as (? & H16 & _);
               clear H
           end.
    simplify_option_eq. eauto.
Qed.

(** The c-get parser answers exactly on the lines of its pattern. *)
Lemma parse_cget_grammar line :
  is_Some (_parse_cget_response line) <->
  exists gs rest, matches cget_regex (list_ascii_of_string line) gs rest.
Proof.
  rewrite parse_cget_matches. unfold re_match. split.
  - intros [gs H]. apply exec_sound in H as (gs' & rest & _ & Hm). eauto.
  - intros (gs & rest & Hm). eapply exec_complete, Hm.
Qed.

Lemma parse_cget_remaining line g :
  _parse_cget_response line = Some g -> remaining g = 0.
Proof.
  intros H. apply parse_cget_inv in H as (? & ? & ? & ? & ? & H). apply H.
Qed.

Lemma parse_cstore_inv line s :
  _parse_cstore_response line = Some s ->
  exists g1 g2,
    re_match cstore_regex line = Some [g1; g2]
    /\ py_int 10 g1 = Some (store_pcid s)
    /\ py_int 16 g2 = Some (store_status s).
Proof.
  unfold _parse_cstore_response.
  destruct (re_match cstore_regex line) as [[|g1 [|g2 [|? ?]]]|];
    try discriminate.
  intros H. simplify_option_eq. exists g1, g2. repeat split; assumption.
Qed.

(** ** Statements about the line parser *)

(** C1 (the code departs from the claim).  On the retrieve-progress line
    with [warning=0] and [status=1AH] the pattern captures the warning token
    ["0"] and the status token ["1A"], whose base-16 value is 26; the parser
    returns warning 0 and status 0, because it reads the fourth group, the
    warning token, a second time in base 16 and never reads the fifth. *)
Theorem parse_cget_status_read_from_warning_group :
  re_match cget_regex get_line_1A =
    Some (map list_ascii_of_string ["1"; "3"; "0"; "0"; "1A"])
  /\ py_int 16 (list_ascii_of_string "1A") = Some 26
  /\ _parse_cget_response get_line_1A = Some (mkCGetResponse 1 0 3 0 0 0).
Proof. repeat split; vm_compute; reflexivity. Qed.

(** C8, as the claim states it, fails: the response parsed from a
    retrieve-progress line has [remaining] 0, not -1. *)
Lemma parse_cget_remaining_not_unknown :
  remaining <$> _parse_cget_response get_line_done = Some 0
  /\ remaining <$> _parse_cget_response get_line_done <> Some (-1).
Proof. split; vm_compute; [reflexivity|discriminate]. Qed.

(** C8 (amended).  Every [CGetResponse] the parser produces carries a
    [remaining] count of 0. *)
Theorem parse_cget_remaining_zero line g :
  _parse_cget_response line = Some g -> remaining g = 0.
Proof. apply parse_cget_remaining. Qed.

Lemma parse_cget_remaining_zero_witness :
  _parse_cget_response get_line_done = Some (mkCGetResponse 1 0 2 0 0 0)
  /\ remaining (mkCGetResponse 1 0 2 0 0 0) = 0.
Proof.
  split; [vm_compute; reflexivity|].
  apply (parse_cget_remaining_zero get_line_done). vm_compute. reflexivity.
Defined.

(** ** Statements about the command builder *)

(** With the globals of the module the builder stops at its first read of
    [level], whatever the command and whatever [USEQUOTES]. *)
Lemma combo_cmd_module_globals quotes cmd :
  combo_cmd quotes module_globals cmd = inl (NameError "level").
Proof. reflexivity. Qed.

(** C2 (the code departs from the claim).  A series-level build for the
    caller map [{'PatientID': '123', 'Modality': ''}] is the call
    [combo_cmd(find_cmd)] that [finder] makes, or the call
    [combo_cmd(get_cmd)] that [geter] makes, with [level='series'] and that
    map among their own arguments.  The builder raises [NameError] for the
    name [level] and emits no directive: [finder] raises that error, and the
    run of [geter] yields nothing and ends with it. *)
Theorem combo_cmd_series_raises_name_error :
  let query_map := [("PatientID", "123"); ("Modality", "")] in
  combo_cmd false module_globals
            ["findscu"; "--bind"; "me"; "--connect";
             "PACSAET@pacs.example:11112"]
  = inl (NameError "level")
  /\ (finder (host_with [] 0 []) keep_order "PACSAET" "pacs.example" "11112"
             "me" "series" text_parser None query_map ∅).1
     = inl (NameError "level")
  /\ geter (host_with [] 0 []) "PACSAET" "pacs.example" "11112" "me" "series"
           "./" query_map
     = mkRun [] (Some (NameError "level")).
Proof. repeat split; vm_compute; reflexivity. Qed.

(** ** Statements about the aggregation loop *)




(** C4, as the claim states it, fails: after two store responses a retrieve
    response with [completed=1] takes the yielded count from 2 back to 1,
    although the only [completed] field in the stream is trivially
    non-decreasing. *)
Lemma fetch_completed_decreases :
  let responses := [Store (mkCStoreResponse 1 0); Store (mkCStoreResponse 1 0);
                    Get (mkCGetResponse 1 0 1 0 0 0)] in
  Sorted Z.le (retrieve_completed responses)
  /\ map fst (yielded (fetch_loop (mkRun responses None))) = [1; 2; 1]
  /\ ~ Sorted Z.le (map fst (yielded (fetch_loop (mkRun responses None)))).
Proof.
  cbn. repeat split.
  - repeat constructor.
  - intros H. inversion H as [|? ? Hs _]; subst.
    inversion Hs as [|? ? _ Hh]; subst. inversion Hh; subst. lia.
Qed.

(** C4 (amended).  For every stream of store and retrieve responses in
    which each retrieve response carries a [completed] field at least as
    large as the count held when it arrives (the field of the retrieve
    response before it, or 0 when there is none, plus the number of store
    responses since), the [completed] components of the yielded snapshots
    are non-decreasing. *)
Theorem fetch_completed_monotone (responses : list response)
    (fin : option exn) :
  retrieve_covers 0 responses ->
  Sorted Z.le (map fst (yielded (fetch_loop (mkRun responses fin)))).
Proof. intros H. cbn. apply fetch_snapshots_sorted, H. Qed.

Lemma fetch_completed_monotone_witness :
  Sorted Z.le
    (map fst (yielded (fetch_loop
       (mkRun [Store (mkCStoreResponse 1 0); Get (mkCGetResponse 1 0 1 0 0 0);
               Store (mkCStoreResponse 1 0); Get (mkCGetResponse 1 0 2 0 0 0)]
              None)))).
Proof.
  apply fetch_completed_monotone. cbn. lia.
Defined.

(** ** Dispatch *)

Lemma is_level_cases level :
  is_level level ->
  level = "patient" \/ level = "study" \/ level = "series" \/ level = "image".
Proof.
  unfold is_level. cbn. rewrite !elem_of_cons, elem_of_nil. tauto.
Qed.

Section Dispatch.
Context {File Record_ Auth : Type}.
Variable tk : toolkit File.
Variable dicomweb_get : @invocation File Record_ Auth -> run response.
Variable dicomweb_find : @invocation File Record_ Auth -> exn + list Record_.
Variable sorted_by : string -> list Record_ -> exn + list Record_.
Variable aettable : gmap string (server Auth).
Variable localaet : string.

Lemma fetch_table_web level :
  is_level level ->
  exists f, table_get fetch_level_souported (Some "W") level = inr f.
Proof.
  intros H. destruct (is_level_cases _ H) as [-> | [-> | [-> | ->]]];
    vm_compute; eauto.
Qed.

Lemma fetch_table_get_tool level :
  is_level level ->
  table_get fetch_level_souported (Some "G") level = inr getter_fn.
Proof.
  intros H. destruct (is_level_cases _ H) as [-> | [-> | [-> | ->]]];
    vm_compute; reflexivity.
Qed.

Lemma known_server servername srv :
  aettable !! servername = Some srv ->
  aettable_contains aettable servername = true
  /\ aettable_getitem aettable servername = inr srv.
Proof.
  intros H. unfold aettable_contains, aettable_getitem. rewrite H.
  split; [|reflexivity]. apply bool_decide_eq_true_2, elem_of_dom. eauto.
Qed.

Lemma unknown_server servername :
  aettable !! servername = None ->
  aettable_contains aettable servername = false
  /\ aettable_getitem aettable servername = inl (KeyError (Some servername)).
Proof.
  intros H. unfold aettable_contains, aettable_getitem. rewrite H.
  split; [|reflexivity]. apply bool_decide_eq_false_2.
  rewrite elem_of_dom, H. intros [? ?]. discriminate.
Qed.

(** An unknown name stops [fetch] at its first test, before any call. *)
Lemma fetch_select_unknown servername level save_dir query_map :
  aettable !! servername = None ->
  fetch_select (File:=File) (Record_:=Record_) aettable localaet servername
               level save_dir query_map
  = inl (QIError (NotInNodeTable servername)).
Proof.
  intros H. unfold fetch_select.
  destruct (unknown_server _ H) as [-> _]. reflexivity.
Qed.

(** An unknown name stops [query] at the subscript of the node table,
    with the [KeyError] of the subscript; the test that would report the
    name as missing from the node table is never reached. *)
Lemma query_select_unknown servername level
    (parser : File -> list string -> Record_) ording_key query_map :
  aettable !! servername = None ->
  query_select aettable localaet servername level parser ording_key query_map
  = inl (KeyError (Some servername)).
Proof.
  intros H. unfold query_select.
  destruct (unknown_server _ H) as [_ ->]. reflexivity.
Qed.

(** With the get tool selected, [fetch] calls [getter] with the server's
    address, the local AET, the level and the save directory. *)
Lemma fetch_select_get_tool servername srv level save_dir query_map :
  aettable !! servername = Some srv ->
  "W" ∉ facilities srv -> "G" ∈ facilities srv -> is_level level ->
  fetch_select (File:=File) (Record_:=Record_) aettable localaet servername
               level save_dir query_map
  = inr (CallGet getter_fn (aet srv) (host srv) (port srv) localaet level
                 save_dir query_map).
Proof.
  intros Hsrv HW HG Hlevel. unfold fetch_select.
  destruct (known_server _ _ Hsrv) as [-> ->]. cbn [negb]. unfold has.
  rewrite (bool_decide_eq_false_2 _ HW), (bool_decide_eq_true_2 _ HG).
  rewrite (fetch_table_get_tool _ Hlevel). reflexivity.
Qed.

Lemma fetch_select_web servername srv level save_dir query_map :
  aettable !! servername = Some srv ->
  "W" ∈ facilities srv -> is_level level ->
  fetch_select (File:=File) (Record_:=Record_) aettable localaet servername
               level save_dir query_map
  = inr (CallWebGet (aet srv) (host srv) (port srv) (auth srv) query_map).
Proof.
  intros Hsrv HW Hlevel. unfold fetch_select.
  destruct (known_server _ _ Hsrv) as [-> ->]. cbn [negb]. unfold has.
  rewrite (bool_decide_eq_true_2 _ HW).
  destruct (fetch_table_web _ Hlevel) as [f ->]. reflexivity.
Qed.
End Dispatch.

(** ** Statements about [Interface.fetch] and [Interface.query] *)




(** C6 (the code departs from the claim).  For the name ["Nowhere"], which
    is not in the node table, [fetch] raises the not-in-node-table
    [QIError] without calling a backend; [query] calls no backend either,
    but what it raises is the [KeyError] of the table subscript, not the
    not-in-node-table error. *)
Theorem query_unknown_server_raises_key_error :
  node_table !! "Nowhere" = None
  /\ fetch (host_with [] 0 []) idle_get node_table "me" "Nowhere" "series"
           "./" [("PatientID", "123")]
     = mkRun [] (Some (QIError (NotInNodeTable "Nowhere")))
  /\ query_select node_table "me" "Nowhere" "series" text_parser None
                  [("PatientID", "123")]
     = inl (KeyError (Some "Nowhere"))
  /\ query (host_with [] 0 []) idle_find keep_order node_table "me" "Nowhere"
           "series" text_parser None [("PatientID", "123")] ∅
     = (inl (KeyError (Some "Nowhere")), ∅).
Proof. repeat split; vm_compute; reflexivity. Qed.




(** C10.  For a server in the node table whose facilities contain ["W"],
    and for each of the four hierarchy levels, [fetch] calls
    [rst_ser_level_get] with the server's endpoint, host, port and auth and
    the query map: the call is the same for every level and every
    [save_dir], neither of which is among its arguments; the snapshots are
    those of the loop over what that call yields. *)
Theorem fetch_web_calls_series_get {File Record_ Auth : Type}
    (tk : toolkit File)
    (dicomweb_get : @invocation File Record_ Auth -> run response)
    (aettable : gmap string (server Auth))
    (localaet servername level save_dir : string)
    (query_map : list (string * string)) (srv : server Auth) :
  aettable !! servername = Some srv ->
  "W" ∈ facilities srv -> is_level level ->
  let call := CallWebGet (aet srv) (host srv) (port srv) (auth srv) query_map in
  fetch_select aettable localaet servername level save_dir query_map = inr call
  /\ fetch tk dicomweb_get aettable localaet servername level save_dir query_map
     = fetch_loop (dicomweb_get call)
  /\ (forall level' save_dir',
        is_level level' ->
        fetch_select aettable localaet servername level' save_dir' query_map
        = inr call).
Proof.
  intros Hsrv HW Hlevel call.
  pose proof (fetch_select_web (File:=File) (Record_:=Record_) aettable
                localaet servername srv) as Hsel.
  split; [|split].
  - apply Hsel; assumption.
  - unfold fetch. rewrite (Hsel level save_dir query_map Hsrv HW Hlevel).
    reflexivity.
  - intros level' save_dir' Hlevel'. apply Hsel; assumption.
Qed.

Lemma fetch_web_calls_series_get_witness :
  fetch_select (File:=string) (Record_:=string) node_table "me" "WebPACS"
               "patient" "/data/in" [("PatientID", "123")]
  = inr (CallWebGet "wado" "web.example" "8080" None [("PatientID", "123")]).
Proof.
  exact (proj1 (fetch_web_calls_series_get (host_with [] 0 []) idle_get
                  node_table "me" "WebPACS" "patient" "/data/in"
                  [("PatientID", "123")] web_server
                  ltac:(vm_compute; reflexivity) ltac:(by_evaluation)
                  ltac:(by_evaluation))).
Defined.

(** ** The temporary directory of [finder] *)

(** [finder] stops at its call of [combo_cmd], with the directory it has
    just made in place. *)
Lemma finder_stops_at_combo_cmd {File Record_ : Type} (tk : toolkit File)
    (sorted_by : string -> list Record_ -> exn + list Record_)
    (aet node port laet level : string)
    (parser : File -> list string -> Record_) (ording_key : option string)
    (query_map : list (string * string)) (fs : gmap string (list File)) :
  finder tk sorted_by aet node port laet level parser ording_key query_map fs
  = (inl (NameError "level"), <[mkdtemp tk (dom fs) := []]> fs).
Proof. reflexivity. Qed.

(** C9 (the code departs from the claim).  A query on a find-tool server
    makes its temporary directory and then raises, at the call of
    [combo_cmd] in [finder]: the directory, which was not there before the
    call, is there after it, empty, whether findscu would have exited with
    code 1 or with code 0. *)
Theorem query_raises_and_leaves_tmpdir :
  let q code :=
    query (host_with [] code ["match1"]) idle_find keep_order node_table "me"
          "PACS" "series" text_parser None [("PatientID", "123")] ∅ in
  (∅ : gmap string (list string)) !! "/tmp/dcmfetch0" = None
  /\ (q 1).1 = inl (NameError "level")
  /\ (q 1).2 !! "/tmp/dcmfetch0" = Some []
  /\ q 0 = q 1.
Proof. vm_compute. repeat split; reflexivity. Qed.

(** * Further properties of the sources *)

(** ** The line parsers and the loop of [geter] *)

Lemma digit_value_range a d : digit_value a = Some d -> 0 <= d < 16.
Proof.
  destruct a as [[] [] [] [] [] [] [] []]; intros H; vm_compute in H;
    try discriminate H; injection H as <-; lia.
Qed.

Lemma int_from_bound base s : forall acc n,
  0 <= acc -> 1 <= base ->
  int_from base acc s = Some n ->
  n < (acc + 1) * base ^ Z.of_nat (length s).
Proof.
  induction s as [|a s' IH]; intros acc n Hacc Hbase; simpl int_from.
  - intros [= <-]. simpl. lia.
  - destruct (digit_value a) as [d|] eqn:Hd; [|discriminate].
    destruct (Z.ltb_spec d base); [|discriminate].
    pose proof (digit_value_range _ _ Hd) as Hr.
    intros Hn. apply IH in Hn; [|nia|assumption].
    rewrite length_cons, Nat2Z.inj_succ, Z.pow_succ_r by lia.
    assert (0 < base ^ Z.of_nat (length s')) by (apply Z.pow_pos_nonneg; lia).
    nia.
Qed.

Lemma parse_cstore_groups line g1 g2 :
  re_match cstore_regex line = Some [g1; g2] ->
  fits (Digit, 1%nat, None) g1 /\ fits (HexDigit, 1%nat, Some 4%nat) g2.
Proof.
  unfold re_match. intros H. apply exec_groups in H as (gs' & Hgs & Hfits).
  change (groups_of cstore_regex) with
    [(Digit, 1%nat, @None nat); (HexDigit, 1%nat, Some 4%nat)] in Hfits.
  simpl in Hgs. subst gs'.
  apply Forall2_cons_1 in Hfits as [H1 Hfits].
  apply Forall2_cons_1 in Hfits as [H2 _]. exact (conj H1 H2).
Qed.

Lemma parse_cget_groups line g1 g2 g3 g4 g5 :
  re_match cget_regex line = Some [g1; g2; g3; g4; g5] ->
  fits (Digit, 1%nat, None) g1 /\ fits (Digit, 1%nat, None) g2
  /\ fits (Digit, 1%nat, None) g3 /\ fits (Digit, 1%nat, None) g4
  /\ fits (HexDigit, 1%nat, Some 4%nat) g5.
Proof.
  unfold re_match. intros H. apply exec_groups in H as (gs' & Hgs & Hfits).
  change (groups_of cget_regex) with
    [(Digit, 1%nat, @None nat); (Digit, 1%nat, None); (Digit, 1%nat, None);
     (Digit, 1%nat, None); (HexDigit, 1%nat, Some 4%nat)] in Hfits.
  simpl in Hgs. subst gs'.
  apply Forall2_cons_1 in Hfits as [F1 Hfits].
  apply Forall2_cons_1 in Hfits as [F2 Hfits].
  apply Forall2_cons_1 in Hfits as [F3 Hfits].
  apply Forall2_cons_1 in Hfits as [F4 Hfits].
  apply Forall2_cons_1 in Hfits as [F5 _].
  exact (conj F1 (conj F2 (conj F3 (conj F4 F5)))).
Qed.

Lemma py_int_nonneg base c lo hi g n :
  (forall a, accepts c a = true ->
             exists d, digit_value a = Some d /\ 0 <= d < base) ->
  (1 <= lo)%nat -> fits (c, lo, hi) g -> py_int base g = Some n -> 0 <= n.
Proof.
  intros Hdig Hlo Hfits Hn.
  destruct (py_int_total base c lo hi g Hdig Hlo Hfits) as (m & Hm & ?).
  congruence.
Qed.

(** The c-store parser answers exactly on the lines its pattern matches. *)
Lemma parse_cstore_matches line :
  is_Some (_parse_cstore_response line) <-> is_Some (re_match cstore_regex line).
Proof.
  split.
  - intros [s Hs]. apply parse_cstore_inv in Hs as (? & ? & -> & _). eauto.
  - intros [gs Hgs]. unfold _parse_cstore_response.
    pose proof Hgs as Hgs'. unfold re_match in Hgs'.
    apply exec_groups in Hgs' as (gs' & -> & Hfits).
    change (groups_of cstore_regex) with
      [(Digit, 1%nat, @None nat); (HexDigit, 1%nat, Some 4%nat)] in Hfits.
    apply Forall2_cons_inv_l in Hfits as (g1 & ? & H1 & Hfits & ->).
    apply Forall2_cons_inv_l in Hfits as (g2 & ? & H2 & Hfits & ->).
    apply Forall2_nil_inv_l in Hfits as ->.
    rewrite Hgs. cbn [rev app].
    destruct (py_int_total 10 Digit 1 None g1 digit_value_digit ltac:(lia) H1)
      as (n1 & -> & _).
    destruct (py_int_total 16 HexDigit 1 (Some 4%nat) g2 digit_value_hex
                ltac:(lia) H2) as (n2 & -> & _).
    cbn. eauto.
Qed.

Lemma int_from_decimal_hex s :
  Forall (fun a => accepts Digit a = true) s ->
  forall a b w x,
    0 <= a <= b -> (a = 0 <-> b = 0) ->
    int_from 10 a s = Some w -> int_from 16 b s = Some x ->
    0 <= w <= x /\ (w = 0 <-> x = 0).
Proof.
  induction 1 as [|c s' Hc _ IH]; intros a b w x Hab Hz; simpl int_from.
  - intros [= <-] [= <-]. split; assumption.
  - destruct (digit_value_digit c Hc) as (d & -> & Hd).
    destruct (Z.ltb_spec d 10); [|lia]. destruct (Z.ltb_spec d 16); [|lia].
    apply IH; lia.
Qed.

Lemma list_ascii_of_string_app (s t : string) :
  list_ascii_of_string (s ++ t)%string =
  list_ascii_of_string s ++ list_ascii_of_string t.
Proof. induction s as [|a s IH]; simpl; [reflexivity|]. f_equal. exact IH. Qed.

(** A match stays a match when text is added after the line. *)
Lemma matches_suffix p s gs rest x :
  matches p s gs rest -> matches p (s ++ x) gs (rest ++ x).
Proof.
  induction 1; cbn [app]; try rewrite <- app_assoc; constructor; assumption.
Qed.

Lemma exec_suffix p s x :
  is_Some (exec p s []) -> is_Some (exec p (s ++ x) []).
Proof.
  intros [gs H]. apply exec_sound in H as (gs' & rest & _ & Hm).
  eapply exec_complete, matches_suffix, Hm.
Qed.

Lemma geter_line_is_Some line :
  is_Some (geter_line line) <->
  is_Some (re_match cget_regex line) \/ is_Some (re_match cstore_regex line).
Proof.
  rewrite <- parse_cget_matches, <- parse_cstore_matches. unfold geter_line.
  destruct (_parse_cget_response line) as [g|].
  - split; [left|]; eauto.
  - destruct (_parse_cstore_response line) as [s|].
    + split; [right|]; eauto.
    + split; [intros [? ?]; discriminate|].
      intros [[? ?]|[? ?]]; discriminate.
Qed.

(** X5.  A [CStoreResponse] built by [_parse_cstore_response] has a
    non-negative [pcid] and a [status] between 0 and 0xFFFF. *)
Theorem parse_cstore_ranges (line : string) (s : CStoreResponse) :
  _parse_cstore_response line = Some s ->
  0 <= store_pcid s /\ 0 <= store_status s < 65536.
Proof.
  intros H. apply parse_cstore_inv in H as (g1 & g2 & Hm & Hp & Hs).
  apply parse_cstore_groups in Hm as [H1 H2].
  split; [|split].
  - exact (py_int_nonneg 10 Digit 1 None g1 _ digit_value_digit
             ltac:(lia) H1 Hp).
  - exact (py_int_nonneg 16 HexDigit 1 (Some 4%nat) g2 _ digit_value_hex
             ltac:(lia) H2 Hs).
  - destruct H2 as (_ & Hlo & Hhi). cbn in Hhi.
    destruct g2 as [|a g2']; [simpl in Hlo; lia|].
    unfold py_int in Hs. apply int_from_bound in Hs; [|lia|lia].
    assert (16 ^ Z.of_nat (length (a :: g2')) <= 16 ^ 4)
      by (apply Z.pow_le_mono_r; lia).
    lia.
Qed.

Lemma parse_cstore_ranges_witness :
  _parse_cstore_response
    "23:00:36,845 INFO  - FINDSCU->CRICStore(1) << 4:C-STORE-RSP[pcid=87, status=ffffH"
    = Some (mkCStoreResponse 87 65535)
  /\ 0 <= 87 /\ 0 <= 65535 < 65536.
Proof.
  split; [vm_compute; reflexivity|].
  apply (parse_cstore_ranges
           "23:00:36,845 INFO  - FINDSCU->CRICStore(1) << 4:C-STORE-RSP[pcid=87, status=ffffH"
           (mkCStoreResponse 87 65535)).
  vm_compute. reflexivity.
Defined.

(** X6.  Every count of a [CGetResponse] built by [_parse_cget_response]
    is non-negative: [pcid], [completed], [failed], [warning] and [status],
    besides the constant [remaining]. *)
Theorem parse_cget_nonnegative (line : string) (g : CGetResponse) :
  _parse_cget_response line = Some g ->
  0 <= pcid g /\ 0 <= completed g /\ 0 <= failed g /\ 0 <= warning g
  /\ 0 <= status g /\ 0 <= remaining g.
Proof.
  intros H.
  apply parse_cget_inv in H as (g1 & g2 & g3 & g4 & g5 & Hm & H1 & H2 & H3 & H4 & H5 & Hr).
  apply parse_cget_groups in Hm as (F1 & F2 & F3 & F4 & _).
  assert (Hdec : forall gi n, fits (Digit, 1%nat, None) gi ->
                             py_int 10 gi = Some n -> 0 <= n).
  { intros gi n Hf Hn.
    exact (py_int_nonneg 10 Digit 1 None gi n digit_value_digit
             ltac:(lia) Hf Hn). }
  pose proof (py_int_nonneg 16 Digit 1 None g4 (status g) digit_as_hex
                ltac:(lia) F4 H5).
  pose proof (Hdec _ _ F1 H1). pose proof (Hdec _ _ F2 H2).
  pose proof (Hdec _ _ F3 H3). pose proof (Hdec _ _ F4 H4). lia.
Qed.

Lemma parse_cget_nonnegative_witness :
  0 <= completed (mkCGetResponse 1 0 2 0 0 0).
Proof.
  apply (parse_cget_nonnegative get_line_done (mkCGetResponse 1 0 2 0 0 0)).
  vm_compute. reflexivity.
Defined.

(** X7.  In a [CGetResponse] built by [_parse_cget_response] the [status]
    is the base-16 reading of the text whose base-10 reading is [warning]:
    it is at least [warning], and it is 0 exactly when [warning] is 0. *)
Theorem parse_cget_status_follows_warning (line : string) (g : CGetResponse) :
  _parse_cget_response line = Some g ->
  warning g <= status g /\ (status g = 0 <-> warning g = 0).
Proof.
  intros H.
  apply parse_cget_inv in H as (g1 & g2 & g3 & g4 & g5 & Hm & _ & _ & _ & H4 & H5 & _).
  apply parse_cget_groups in Hm as (_ & _ & _ & (Hall & Hlen & _) & _).
  destruct g4 as [|a g4']; [simpl in Hlen; lia|].
  unfold py_int in H4, H5.
  destruct (int_from_decimal_hex _ Hall 0 0 _ _ ltac:(lia) ltac:(tauto) H4 H5)
    as [Hle Hz].
  split; [lia|]. symmetry. exact Hz.
Qed.

Lemma parse_cget_status_follows_warning_witness :
  _parse_cget_response
    "23:00:36,960 INFO  - FINDSCU->CRICStore(1) >> 1:C-GET-RSP[pcid=1, completed=3, failed=0, warning=12, status=0H"
    = Some (mkCGetResponse 1 0 3 0 12 18)
  /\ 12 <= 18.
Proof.
  split; [vm_compute; reflexivity|].
  apply (parse_cget_status_follows_warning
           "23:00:36,960 INFO  - FINDSCU->CRICStore(1) >> 1:C-GET-RSP[pcid=1, completed=3, failed=0, warning=12, status=0H"
           (mkCGetResponse 1 0 3 0 12 18)).
  vm_compute. reflexivity.
Defined.

(** X8.  [_parse_cget_response] returns a response exactly for the lines
    that begin with a text of the c-get pattern; on such a line none of its
    conversions to [int] fails. *)
Theorem parse_cget_answers_on_pattern (line : string) :
  is_Some (_parse_cget_response line) <->
  exists gs rest, matches cget_regex (list_ascii_of_string line) gs rest.
Proof. apply parse_cget_grammar. Qed.

(** X9.  [_parse_cstore_response] returns a response exactly for the lines
    that begin with a text of the c-store pattern; on such a line none of
    its conversions to [int] fails. *)
Theorem parse_cstore_answers_on_pattern (line : string) :
  is_Some (_parse_cstore_response line) <->
  exists gs rest, matches cstore_regex (list_ascii_of_string line) gs rest.
Proof.
  rewrite parse_cstore_matches. unfold re_match. split.
  - intros [gs H]. apply exec_sound in H as (gs' & rest & _ & Hm). eauto.
  - intros (gs & rest & Hm). eapply exec_complete, Hm.
Qed.

(** X10.  Both patterns are anchored at the first character: a line that
    does not begin with a decimal digit (an empty line, a line with
    leading blanks) gives no response in the loop of [geter]. *)
Theorem geter_line_anchored (line : string) :
  starts_with_digit line = false -> geter_line line = None.
Proof.
  intros H.
  assert (Hget : re_match cget_regex line = None).
  { unfold re_match. change cget_regex with (Chr Digit :: tl cget_regex).
    destruct line as [|a rest]; cbn [list_ascii_of_string exec]; [reflexivity|].
    cbn in H. cbn [accepts]. rewrite H. reflexivity. }
  assert (Hstore : re_match cstore_regex line = None).
  { unfold re_match. change cstore_regex with (Chr Digit :: tl cstore_regex).
    destruct line as [|a rest]; cbn [list_ascii_of_string exec]; [reflexivity|].
    cbn in H. cbn [accepts]. rewrite H. reflexivity. }
  unfold geter_line, _parse_cget_response, _parse_cstore_response.
  rewrite Hget, Hstore. reflexivity.
Qed.

Lemma geter_line_anchored_witness :
  geter_line
    " 23:00:36,845 INFO  - FINDSCU->CRICStore(1) << 4:C-STORE-RSP[pcid=1, status=0H"
  = None.
Proof.
  apply geter_line_anchored. vm_compute. reflexivity.
Defined.

(** X11.  Neither pattern is anchored at the end: a line that gives a
    response in the loop of [geter] still gives one when any text, such as
    the end of line, follows it. *)
Theorem geter_line_ignores_tail (line suffix : string) :
  is_Some (geter_line line) -> is_Some (geter_line (line ++ suffix)%string).
Proof.
  rewrite !geter_line_is_Some. unfold re_match.
  rewrite list_ascii_of_string_app.
  intros [H|H]; [left|right]; apply exec_suffix, H.
Qed.

Lemma geter_line_ignores_tail_witness :
  is_Some (geter_line (store_line_ok ++ String (ascii_of_nat 10) EmptyString)%string).
Proof.
  apply geter_line_ignores_tail. vm_compute. eauto.
Defined.

(** X12.  The loop of [geter] yields at most one response per line, in
    line order: the responses of a concatenation of outputs are those of
    the first part followed by those of the second. *)
Theorem geter_lines_in_order (lines1 lines2 : list string) :
  geter_lines (lines1 ++ lines2) = geter_lines lines1 ++ geter_lines lines2
  /\ (length (geter_lines lines1) <= length lines1)%nat.
Proof.
  split.
  - induction lines1 as [|line rest IH]; [reflexivity|].
    cbn [app geter_lines]. destruct (geter_line line); rewrite IH; reflexivity.
  - induction lines1 as [|line rest IH]; [reflexivity|].
    cbn [geter_lines]. destruct (geter_line line); simpl; lia.
Qed.

(** ** [finder] and [geter] *)

(** X1.  Every run of [geter] ends by raising [NameError] for the name
    [level] before it has yielded a response.  The process is not started:
    the run is the same whatever a process would print or exit with. *)
Theorem geter_raises_name_error {File : Type} (tk : toolkit File)
    (aet node port laet level savedir : string)
    (query_map : list (string * string)) :
  geter tk aet node port laet level savedir query_map
  = mkRun [] (Some (NameError "level"))
  /\ (forall popen' : list string -> process File,
        geter (mkToolkit (FINDSCU tk) (GETSCU tk) (CONTEXTS tk) (USEQUOTES tk)
                         (isfile tk) popen' (mkdtemp tk))
              aet node port laet level savedir query_map
        = geter tk aet node port laet level savedir query_map).
Proof. split; reflexivity. Qed.

(** X13.  Every call of [finder] raises [NameError] for the name [level]
    as soon as it has made its temporary directory, whatever the level, the
    query map and the ordering key: no record is returned, the temporary
    directories after the call are those before it with the new directory,
    empty, and findscu is not started, the call being the same whatever a
    process would do. *)
Theorem finder_raises_name_error {File Record_ : Type} (tk : toolkit File)
    (sorted_by : string -> list Record_ -> exn + list Record_)
    (aet node port laet level : string)
    (parser : File -> list string -> Record_) (ording_key : option string)
    (query_map : list (string * string)) (fs : gmap string (list File)) :
  let result :=
    finder tk sorted_by aet node port laet level parser ording_key
           query_map fs in
  result.1 = inl (NameError "level")
  /\ result.2 = <[mkdtemp tk (dom fs) := []]> fs
  /\ result.2 !! mkdtemp tk (dom fs) = Some []
  /\ (forall popen' : list string -> process File,
        finder (mkToolkit (FINDSCU tk) (GETSCU tk) (CONTEXTS tk) (USEQUOTES tk)
                          (isfile tk) popen' (mkdtemp tk))
               sorted_by aet node port laet level parser ording_key
               query_map fs
        = result).
Proof.
  intros result. subst result. rewrite finder_stops_at_combo_cmd.
  cbn [fst snd]. repeat split. apply lookup_insert_eq.
Qed.

(** ** [Interface.fetch] *)

Lemma table_get_error table server_mark level e :
  table_get table server_mark level = inl e -> exists key, e = KeyError key.
Proof.
  unfold table_get. destruct server_mark as [mark|]; [|intros [= <-]; eauto].
  destruct (dict_get table mark) as [row|]; [|intros [= <-]; eauto].
  destruct (dict_get row level); [discriminate|intros [= <-]; eauto].
Qed.

Lemma fetch_table_get_tool_inv level f :
  table_get fetch_level_souported (Some "G") level = inr f -> f = getter_fn.
Proof.
  unfold table_get.
  replace (dict_get fetch_level_souported "G")
    with (Some [("patient", getter_fn); ("study", getter_fn);
                ("series", getter_fn); ("image", getter_fn)])
    by (vm_compute; reflexivity).
  cbn [dict_get].
  repeat (destruct (decide (_ = level)); [intros [= <-]; reflexivity|]).
  discriminate.
Qed.

(** What [fetch] can do before its loop: the not-in-node-table error for
    an unknown name, a [KeyError] for a known one, or a call of
    [rst_ser_level_get] or of [getter]. *)
Lemma fetch_select_cases {File Record_ Auth : Type}
    (aettable : gmap string (server Auth))
    (localaet servername level save_dir : string)
    (query_map : list (string * string)) :
  match fetch_select (File:=File) (Record_:=Record_) aettable localaet
          servername level save_dir query_map with
  | inl (QIError (NotInNodeTable name)) =>
      name = servername /\ aettable !! servername = None
  | inl (KeyError key) => exists srv, aettable !! servername = Some srv
  | inl _ => False
  | inr (CallWebGet _ _ _ _ _) => True
  | inr (CallGet getter _ _ _ _ _ _ _) => getter = getter_fn
  | inr _ => False
  end.
Proof.
  unfold fetch_select, aettable_contains, aettable_getitem.
  destruct (aettable !! servername) as [srv|] eqn:Hsrv.
  - rewrite bool_decide_eq_true_2 by (apply elem_of_dom; eauto). cbn [negb].
    destruct (has "W" srv).
    + destruct (table_get fetch_level_souported (Some "W") level) as [e|f] eqn:E.
      * apply table_get_error in E as [key ->]. eauto.
      * cbn. exact I.
    + destruct (has "G" srv).
      * destruct (table_get fetch_level_souported (Some "G") level) as [e|f] eqn:E.
        -- apply table_get_error in E as [key ->]. eauto.
        -- cbn. apply fetch_table_get_tool_inv in E. exact E.
      * cbn. eauto.
  - rewrite bool_decide_eq_false_2.
    + cbn. split; reflexivity.
    + rewrite elem_of_dom, Hsrv. intros [? ?]. discriminate.
Qed.

Lemma dict_get_None {V : Type} (d : list (string * V)) k :
  k ∉ dict_keys d -> dict_get d k = None.
Proof.
  induction d as [|[k' v] d IH]; [reflexivity|]. cbn.
  rewrite not_elem_of_cons. intros [Hne Hk].
  destruct (decide (k' = k)); [congruence|]. apply IH, Hk.
Qed.

Lemma table_get_not_level table mark row level :
  dict_get table mark = Some row -> dict_keys row = dict_keys level_map ->
  ~ is_level level ->
  table_get table (Some mark) level = inl (KeyError (Some level)).
Proof.
  intros Hrow Hkeys Hlevel. unfold table_get. rewrite Hrow.
  rewrite dict_get_None; [reflexivity|]. rewrite Hkeys. exact Hlevel.
Qed.

(** X15.  For a server in the node table that has neither the ["W"] nor
    the ["G"] facility, [fetch] yields nothing and raises [KeyError] for the
    key [None] out of the dispatch table; no backend is called. *)
Theorem fetch_without_facility {File Record_ Auth : Type} (tk : toolkit File)
    (dicomweb_get : @invocation File Record_ Auth -> run response)
    (aettable : gmap string (server Auth))
    (localaet servername level save_dir : string)
    (query_map : list (string * string)) (srv : server Auth) :
  aettable !! servername = Some srv ->
  "W" ∉ facilities srv -> "G" ∉ facilities srv ->
  fetch_select (File:=File) (Record_:=Record_) aettable localaet servername
               level save_dir query_map = inl (KeyError None)
  /\ fetch tk dicomweb_get aettable localaet servername level save_dir
           query_map = mkRun [] (Some (KeyError None)).
Proof.
  intros Hsrv HW HG.
  assert (Hsel : fetch_select (File:=File) (Record_:=Record_) aettable
                   localaet servername level save_dir query_map
                 = inl (KeyError None)).
  { unfold fetch_select.
    destruct (known_server aettable _ _ Hsrv) as [-> ->]. cbn [negb].
    unfold has.
    rewrite (bool_decide_eq_false_2 _ HW), (bool_decide_eq_false_2 _ HG).
    reflexivity. }
  split; [exact Hsel|]. unfold fetch. rewrite Hsel. reflexivity.
Qed.

Lemma fetch_without_facility_witness :
  fetch (host_with [] 0 []) idle_get (<["Archive" := find_only_server]> node_table)
        "me" "Archive" "series" "./" [("SeriesInstanceUID", "1.2.3")]
  = mkRun [] (Some (KeyError None)).
Proof.
  apply (fetch_without_facility (host_with [] 0 []) idle_get
           (<["Archive" := find_only_server]> node_table) "me" "Archive"
           "series" "./" [("SeriesInstanceUID", "1.2.3")] find_only_server);
    [vm_compute; reflexivity | by_evaluation | by_evaluation].
Defined.

(** X16.  For a server in the node table with the ["W"] or the ["G"]
    facility and a level that is not one of the four, [fetch] yields
    nothing and raises the [KeyError] of the level; no backend is
    called. *)
Theorem fetch_unknown_level {File Record_ Auth : Type} (tk : toolkit File)
    (dicomweb_get : @invocation File Record_ Auth -> run response)
    (aettable : gmap string (server Auth))
    (localaet servername level save_dir : string)
    (query_map : list (string * string)) (srv : server Auth) :
  aettable !! servername = Some srv ->
  "W" ∈ facilities srv \/ "G" ∈ facilities srv ->
  ~ is_level level ->
  fetch tk dicomweb_get aettable localaet servername level save_dir query_map
  = mkRun [] (Some (KeyError (Some level))).
Proof.
  intros Hsrv Hfac Hlevel. unfold fetch, fetch_select.
  destruct (known_server aettable _ _ Hsrv) as [-> ->]. cbn [negb].
  unfold has.
  destruct (decide ("W" ∈ facilities srv)) as [HW|HW].
  - rewrite (bool_decide_eq_true_2 _ HW).
    rewrite (table_get_not_level fetch_level_souported "W" _ level
               ltac:(vm_compute; reflexivity) ltac:(reflexivity) Hlevel).
    reflexivity.
  - destruct Hfac as [?|HG]; [contradiction|].
    rewrite (bool_decide_eq_false_2 _ HW), (bool_decide_eq_true_2 _ HG).
    rewrite (table_get_not_level fetch_level_souported "G" _ level
               ltac:(vm_compute; reflexivity) ltac:(reflexivity) Hlevel).
    reflexivity.
Qed.

Lemma fetch_unknown_level_witness :
  fetch (host_with [store_line_ok] 0 []) idle_get node_table "me" "PACS"
        "SERIES" "./" [("SeriesInstanceUID", "1.2.3")]
  = mkRun [] (Some (KeyError (Some "SERIES"))).
Proof.
  apply (fetch_unknown_level (host_with [store_line_ok] 0 []) idle_get
           node_table "me" "PACS" "SERIES" "./"
           [("SeriesInstanceUID", "1.2.3")] pacs_server);
    [vm_compute; reflexivity | right; by_evaluation | by_evaluation].
Defined.

(** X17.  Before its loop [fetch] never raises its own "supports neither
    direct (c-get) retrieve operations nor a web rest api" error: whatever
    the node table, the name, the level and the query, the branch that
    raises it is not reached. *)
Theorem fetch_never_reports_missing_facility {File Record_ Auth : Type}
    (aettable : gmap string (server Auth))
    (localaet servername level save_dir : string)
    (query_map : list (string * string)) (name : string) :
  fetch_select (File:=File) (Record_:=Record_) aettable localaet servername
               level save_dir query_map
  <> inl (QIError (NoRetrieveFacility name)).
Proof.
  intros H.
  pose proof (fetch_select_cases (File:=File) (Record_:=Record_) aettable
                localaet servername level save_dir query_map) as Hc.
  rewrite H in Hc. exact Hc.
Qed.

Lemma fetch_snapshots_stores responses : forall c r i,
  Forall is_store responses -> (i < length responses)%nat ->
  fetch_snapshots c r responses !! i = Some (c + Z.of_nat i + 1, r).
Proof.
  induction responses as [|[g|s|g|s] rest IH]; intros c r i Hall Hi.
  - simpl in Hi. lia.
  - inversion Hall as [|? ? Hg _]; subst. destruct Hg.
  - inversion Hall as [|? ? _ Hrest]; subst. cbn [fetch_snapshots].
    destruct i as [|i]; cbn [lookup list_lookup].
    + f_equal. f_equal. lia.
    + simpl in Hi. rewrite IH by (assumption || lia). f_equal. f_equal. lia.
  - inversion Hall as [|? ? Hg _]; subst. destruct Hg.
  - inversion Hall as [|? ? Hg _]; subst. destruct Hg.
Qed.

(** X18.  While only store responses arrive, [fetch] counts them: the
    snapshot for the i-th response (from 0) is [(i + 1, -1)], with
    [remaining] still unknown. *)
Theorem fetch_counts_stores (responses : list response) (fin : option exn)
    (i : nat) :
  Forall is_store responses -> (i < length responses)%nat ->
  yielded (fetch_loop (mkRun responses fin)) !! i
  = Some (Z.of_nat i + 1, -1).
Proof.
  intros Hall Hi. cbn. rewrite (fetch_snapshots_stores responses 0 (-1) i Hall Hi).
  reflexivity.
Qed.

Lemma fetch_counts_stores_witness :
  yielded (fetch_loop (mkRun [Store (mkCStoreResponse 1 0);
                              Store (mkCStoreResponse 3 0);
                              Store (mkCStoreResponse 5 0)] None)) !! 2%nat
  = Some (3, -1).
Proof.
  apply (fetch_counts_stores
           [Store (mkCStoreResponse 1 0); Store (mkCStoreResponse 3 0);
            Store (mkCStoreResponse 5 0)] None 2).
  - repeat constructor.
  - cbn. lia.
Defined.

Lemma geter_lines_parsed lines : Forall is_parsed (geter_lines lines).
Proof.
  induction lines as [|line rest IH]; [constructor|]. cbn [geter_lines].
  unfold geter_line.
  destruct (_parse_cget_response line) as [g|]; [constructor; [exact I|exact IH]|].
  destruct (_parse_cstore_response line) as [st|]; [|exact IH].
  constructor; [exact I|exact IH].
Qed.

(** X19.  The loop of [fetch] yields no snapshot for the responses that
    [geter] reads from the output of the tool, whatever the lines and
    however the iterator ends: they are objects of the classes of
    structures.py, and the loop tests for the classes of
    queryinterface.py. *)
Theorem fetch_yields_nothing_for_parsed (lines : list string)
    (fin : option exn) :
  Forall is_parsed (geter_lines lines)
  /\ yielded (fetch_loop (mkRun (geter_lines lines) fin)) = [].
Proof.
  split; [apply geter_lines_parsed|].
  cbn. apply fetch_snapshots_parsed, geter_lines_parsed.
Qed.

Lemma geter_lines_app lines1 lines2 :
  geter_lines (lines1 ++ lines2) = geter_lines lines1 ++ geter_lines lines2.
Proof.
  induction lines1 as [|line rest IH]; [reflexivity|].
  cbn [app geter_lines]. destruct (geter_line line); rewrite IH; reflexivity.
Qed.

(** X20.  When the last line of the tool's output is a c-get line whose
    warning count is not 0, and the tool exits with code 0, the loop of
    [fetch] ends by raising the final-status error with the [status] of
    that response, whatever the status text of the line says. *)
Theorem fetch_fails_on_final_warning (lines : list string) (line : string)
    (g : CGetResponse) :
  _parse_cget_response line = Some g -> warning g <> 0 ->
  finish (fetch_loop (mkRun (geter_lines (lines ++ [line])) None))
  = Some (QIError (FinalStatusNonZero (status g))).
Proof.
  intros Hg Hw.
  assert (Hst : status g <> 0).
  { apply parse_cget_inv in Hg as
      (g1 & g2 & g3 & g4 & g5 & Hm & _ & _ & _ & H4 & H5 & _).
    apply parse_cget_groups in Hm as (_ & _ & _ & (Hall & Hlen & _) & _).
    destruct g4 as [|a g4']; [simpl in Hlen; lia|].
    unfold py_int in H4, H5.
    destruct (int_from_decimal_hex _ Hall 0 0 _ _ ltac:(lia) ltac:(tauto) H4 H5)
      as [_ Hz].
    tauto. }
  unfold fetch_loop. cbn [yielded finish].
  rewrite geter_lines_app. cbn [geter_lines]. unfold geter_line. rewrite Hg.
  rewrite last_snoc. cbn [response_status].
  destruct (decide (status g ≠ 0)); [reflexivity|contradiction].
Qed.

Lemma fetch_fails_on_final_warning_witness :
  finish (fetch_loop (mkRun (geter_lines
    ([store_line_ok] ++
     ["23:00:36,960 INFO  - FINDSCU->CRICStore(1) >> 1:C-GET-RSP[pcid=1, completed=1, failed=0, warning=1, status=0H"]))
    None))
  = Some (QIError (FinalStatusNonZero 1)).
Proof.
  apply (fetch_fails_on_final_warning [store_line_ok]
           "23:00:36,960 INFO  - FINDSCU->CRICStore(1) >> 1:C-GET-RSP[pcid=1, completed=1, failed=0, warning=1, status=0H"
           (mkCGetResponse 1 0 1 0 1 1)).
  - vm_compute. reflexivity.
  - cbn. lia.
Defined.

(** ** [Interface.query] *)

Lemma dict_get_is_Some {V : Type} (d : list (string * V)) k :
  k ∈ dict_keys d -> is_Some (dict_get d k).
Proof.
  induction d as [|[k' v] d IH]; cbn.
  - intros H. apply elem_of_nil in H. destruct H.
  - intros H. destruct (decide (k' = k)); [eauto|].
    apply elem_of_cons in H as [->|H]; [congruence|]. apply IH, H.
Qed.

Lemma tool_find_row_finder level f :
  dict_get tool_find_row level = Some f -> f = finder_fn.
Proof.
  unfold tool_find_row. cbn [dict_get].
  repeat (destruct (decide (_ = level)); [intros [= <-]; reflexivity|]).
  discriminate.
Qed.

Section QueryDispatch.
Context {File Record_ Auth : Type}.
Variable aettable : gmap string (server Auth).
Variable localaet : string.
Variables servername level : string.
Variable parser : File -> list string -> Record_.
Variable ording_key : option string.
Variable query_map : list (string * string).
Variable srv : server Auth.
Hypothesis Hsrv : aettable !! servername = Some srv.

Lemma query_select_web :
  "W" ∈ facilities srv ->
  (~ is_level level ->
   query_select aettable localaet servername level parser ording_key query_map
   = inl (PyException (LevelNotSupported (dict_keys level_map))))
  /\ (is_level level ->
      exists f,
        dict_get web_find_row level = Some f
        /\ query_select aettable localaet servername level parser ording_key
                        query_map
           = inr (CallWebFind f (aet srv) (host srv) (port srv) (auth srv)
                              ording_key parser level query_map)).
Proof.
  intros HW. unfold query_select, has.
  destruct (known_server aettable _ _ Hsrv) as [-> ->]. cbn [negb].
  rewrite (bool_decide_eq_true_2 _ HW).
  replace (dict_get query_level_souported "W") with (Some web_find_row)
    by (vm_compute; reflexivity).
  change (dict_keys web_find_row) with (dict_keys level_map).
  unfold in_list. split; intros Hlevel.
  - rewrite (bool_decide_eq_false_2 _ Hlevel). reflexivity.
  - rewrite (bool_decide_eq_true_2 _ Hlevel). cbn [negb]. unfold table_get.
    replace (dict_get query_level_souported "W") with (Some web_find_row)
      by (vm_compute; reflexivity).
    destruct (dict_get_is_Some web_find_row level Hlevel) as [f Hf].
    rewrite Hf. exists f. split; [reflexivity|].
    rewrite bool_decide_eq_true_2 by reflexivity. reflexivity.
Qed.

Lemma query_select_tool :
  "W" ∉ facilities srv -> "F" ∈ facilities srv ->
  (~ is_level level ->
   query_select aettable localaet servername level parser ording_key query_map
   = inl (PyException (LevelNotSupported (dict_keys level_map))))
  /\ (is_level level ->
      query_select aettable localaet servername level parser ording_key
                   query_map
      = inr (CallFind finder_fn (aet srv) (host srv) (port srv) localaet
                      ording_key parser level query_map)).
Proof.
  intros HW HF. unfold query_select, has.
  destruct (known_server aettable _ _ Hsrv) as [-> ->]. cbn [negb].
  rewrite (bool_decide_eq_false_2 _ HW), (bool_decide_eq_true_2 _ HF).
  replace (dict_get query_level_souported "F") with (Some tool_find_row)
    by (vm_compute; reflexivity).
  change (dict_keys tool_find_row) with (dict_keys level_map).
  unfold in_list. split; intros Hlevel.
  - rewrite (bool_decide_eq_false_2 _ Hlevel). reflexivity.
  - rewrite (bool_decide_eq_true_2 _ Hlevel). cbn [negb]. unfold table_get.
    replace (dict_get query_level_souported "F") with (Some tool_find_row)
      by (vm_compute; reflexivity).
    destruct (dict_get_is_Some tool_find_row level Hlevel) as [f Hf].
    rewrite Hf. apply tool_find_row_finder in Hf as ->.
    rewrite bool_decide_eq_false_2 by discriminate.
    rewrite bool_decide_eq_true_2 by reflexivity. reflexivity.
Qed.

Lemma query_select_unbound :
  "W" ∉ facilities srv -> "F" ∉ facilities srv ->
  query_select aettable localaet servername level parser ording_key query_map
  = inl (UnboundLocalError "server_mark").
Proof.
  intros HW HF. unfold query_select, has.
  destruct (known_server aettable _ _ Hsrv) as [-> ->]. cbn [negb].
  rewrite (bool_decide_eq_false_2 _ HW), (bool_decide_eq_false_2 _ HF).
  reflexivity.
Qed.
End QueryDispatch.

(** X21.  For a server in the node table that has neither the ["W"] nor
    the ["F"] facility, [query] raises [UnboundLocalError] for its variable
    [server_mark]; no backend is called and the temporary directories are
    untouched. *)
Theorem query_without_facility {File Record_ Auth : Type} (tk : toolkit File)
    (dicomweb_find : @invocation File Record_ Auth -> exn + list Record_)
    (sorted_by : string -> list Record_ -> exn + list Record_)
    (aettable : gmap string (server Auth))
    (localaet servername level : string)
    (parser : File -> list string -> Record_) (ording_key : option string)
    (query_map : list (string * string)) (fs : gmap string (list File))
    (srv : server Auth) :
  aettable !! servername = Some srv ->
  "W" ∉ facilities srv -> "F" ∉ facilities srv ->
  query tk dicomweb_find sorted_by aettable localaet servername level parser
        ording_key query_map fs
  = (inl (UnboundLocalError "server_mark"), fs).
Proof.
  intros Hsrv HW HF. unfold query.
  rewrite (query_select_unbound aettable localaet servername level parser
             ording_key query_map srv Hsrv HW HF).
  reflexivity.
Qed.

Lemma query_without_facility_witness :
  query (host_with [] 0 ["doc1"]) idle_find keep_order
        {["Store" := get_only_server]}
        "me" "Store" "study" text_parser None [("StudyDate", "20180205")] ∅
  = (inl (UnboundLocalError "server_mark"), ∅).
Proof.
  apply (query_without_facility (host_with [] 0 ["doc1"]) idle_find keep_order
           {["Store" := get_only_server]}
           "me" "Store" "study" text_parser None [("StudyDate", "20180205")] ∅
           get_only_server);
    [vm_compute; reflexivity | by_evaluation | by_evaluation].
Defined.

(** X22.  Before it calls a backend, [query] raises nothing but the
    [KeyError] of an unknown server name, the [UnboundLocalError] of a
    server without query facility, and the level-not-supported error: its
    own not-in-node-table and supports-neither errors are never raised. *)
Theorem query_errors_before_call {File Record_ Auth : Type}
    (aettable : gmap string (server Auth))
    (localaet servername level : string)
    (parser : File -> list string -> Record_) (ording_key : option string)
    (query_map : list (string * string)) (e : exn) :
  query_select aettable localaet servername level parser ording_key query_map
    = inl e ->
  (e = KeyError (Some servername) /\ aettable !! servername = None)
  \/ e = UnboundLocalError "server_mark"
  \/ (e = PyException (LevelNotSupported (dict_keys level_map))
      /\ ~ is_level level).
Proof.
  destruct (aettable !! servername) as [srv|] eqn:Hsrv.
  - destruct (decide ("W" ∈ facilities srv)) as [HW|HW].
    + destruct (query_select_web aettable localaet servername level parser
                  ording_key query_map srv Hsrv HW) as [Hbad Hgood].
      destruct (decide (is_level level)) as [Hl|Hl].
      * destruct (Hgood Hl) as (f & _ & ->). discriminate.
      * rewrite (Hbad Hl). intros [= <-]. right. right. split; trivial.
    + destruct (decide ("F" ∈ facilities srv)) as [HF|HF].
      * destruct (query_select_tool aettable localaet servername level parser
                    ording_key query_map srv Hsrv HW HF) as [Hbad Hgood].
        destruct (decide (is_level level)) as [Hl|Hl].
        -- rewrite (Hgood Hl). discriminate.
        -- rewrite (Hbad Hl). intros [= <-]. right. right. split; trivial.
      * rewrite (query_select_unbound aettable localaet servername level
                   parser ording_key query_map srv Hsrv HW HF).
        intros [= <-]. right. left. reflexivity.
  - rewrite (query_select_unknown aettable localaet servername level parser
               ording_key query_map Hsrv).
    intros [= <-]. left. split; trivial.
Qed.

Lemma query_errors_before_call_witness :
  bool_decide (is_level "SERIES") = false.
Proof.
  apply bool_decide_eq_false_2.
  destruct (query_errors_before_call (File:=string) node_table "me" "PACS"
              "SERIES" text_parser None [("PatientID", "123")]
              (PyException (LevelNotSupported
                              ["patient"; "study"; "series"; "image"]))
              ltac:(vm_compute; reflexivity))
    as [[H _]|[H|[_ H]]]; [discriminate H|discriminate H|exact H].
Defined.

(** X23.  For a server in the node table with the ["W"] or the ["F"]
    facility and a level that is not one of the four, [query] raises the
    level-not-supported error, which lists [patient], [study], [series]
    and [image]; no backend is called. *)
Theorem query_unknown_level {File Record_ Auth : Type} (tk : toolkit File)
    (dicomweb_find : @invocation File Record_ Auth -> exn + list Record_)
    (sorted_by : string -> list Record_ -> exn + list Record_)
    (aettable : gmap string (server Auth))
    (localaet servername level : string)
    (parser : File -> list string -> Record_) (ording_key : option string)
    (query_map : list (string * string)) (fs : gmap string (list File))
    (srv : server Auth) :
  aettable !! servername = Some srv ->
  "W" ∈ facilities srv \/ "F" ∈ facilities srv ->
  ~ is_level level ->
  query tk dicomweb_find sorted_by aettable localaet servername level parser
        ording_key query_map fs
  = (inl (PyException
            (LevelNotSupported ["patient"; "study"; "series"; "image"])), fs).
Proof.
  intros Hsrv Hfac Hlevel. unfold query.
  destruct (decide ("W" ∈ facilities srv)) as [HW|HW].
  - rewrite (proj1 (query_select_web aettable localaet servername level parser
                      ording_key query_map srv Hsrv HW) Hlevel).
    reflexivity.
  - destruct Hfac as [?|HF]; [contradiction|].
    rewrite (proj1 (query_select_tool aettable localaet servername level
                      parser ording_key query_map srv Hsrv HW HF) Hlevel).
    reflexivity.
Qed.

Lemma query_unknown_level_witness :
  query (host_with [] 0 ["doc1"]) idle_find keep_order node_table "me" "PACS"
        "SERIES" text_parser None [("PatientID", "123")] ∅
  = (inl (PyException
            (LevelNotSupported ["patient"; "study"; "series"; "image"])), ∅).
Proof.
  apply (query_unknown_level (host_with [] 0 ["doc1"]) idle_find keep_order
           node_table "me" "PACS" "SERIES" text_parser None
           [("PatientID", "123")] ∅ pacs_server);
    [vm_compute; reflexivity | right; by_evaluation | by_evaluation].
Defined.

(** X24.  For a server with the ["F"] facility and without ["W"], a level
    among the four and no ordering key, [query] is [finder] called with the
    server's AET, host and port and the interface's local AET: same
    result, same effect on the temporary directories. *)
Theorem query_find_tool_is_finder {File Record_ Auth : Type}
    (tk : toolkit File)
    (dicomweb_find : @invocation File Record_ Auth -> exn + list Record_)
    (sorted_by : string -> list Record_ -> exn + list Record_)
    (aettable : gmap string (server Auth))
    (localaet servername level : string)
    (parser : File -> list string -> Record_)
    (query_map : list (string * string)) (fs : gmap string (list File))
    (srv : server Auth) :
  aettable !! servername = Some srv ->
  "W" ∉ facilities srv -> "F" ∈ facilities srv -> is_level level ->
  query tk dicomweb_find sorted_by aettable localaet servername level parser
        None query_map fs
  = finder tk sorted_by (aet srv) (host srv) (port srv) localaet level parser
           None query_map fs.
Proof.
  intros Hsrv HW HF Hlevel. unfold query.
  rewrite (proj2 (query_select_tool aettable localaet servername level parser
                    None query_map srv Hsrv HW HF) Hlevel).
  cbn [call_query].
  destruct (finder tk sorted_by (aet srv) (host srv) (port srv) localaet level
                   parser None query_map fs) as [[e|res] fs']; reflexivity.
Qed.

Lemma query_find_tool_is_finder_witness :
  query (host_with [] 0 ["doc1"; "doc2"]) idle_find keep_order
        (<["Archive" := find_only_server]> node_table) "me" "Archive" "study"
        text_parser None [("StudyDate", "20180205")] ∅
  = finder (host_with [] 0 ["doc1"; "doc2"]) keep_order "ARCHIVE"
           "archive.example" "104" "me" "study" text_parser None
           [("StudyDate", "20180205")] ∅.
Proof.
  apply (query_find_tool_is_finder (host_with [] 0 ["doc1"; "doc2"]) idle_find
           keep_order (<["Archive" := find_only_server]> node_table) "me"
           "Archive" "study" text_parser [("StudyDate", "20180205")] ∅
           find_only_server);
    [vm_compute; reflexivity | by_evaluation | by_evaluation | by_evaluation].
Defined.

(** X25.  A server with the ["W"] facility is queried through dicomweb,
    also when it has ["F"] as well: for each of the four levels [query]
    calls the find function of that level with the server's endpoint, host,
    port and auth, and never [finder]. *)
Theorem query_prefers_web {File Record_ Auth : Type}
    (aettable : gmap string (server Auth))
    (localaet servername level : string)
    (parser : File -> list string -> Record_) (ording_key : option string)
    (query_map : list (string * string)) (srv : server Auth) :
  aettable !! servername = Some srv ->
  "W" ∈ facilities srv -> is_level level ->
  exists f,
    table_get query_level_souported (Some "W") level = inr f
    /\ f <> finder_fn
    /\ query_select aettable localaet servername level parser ording_key
                    query_map
       = inr (CallWebFind f (aet srv) (host srv) (port srv) (auth srv)
                          ording_key parser level query_map).
Proof.
  intros Hsrv HW Hlevel.
  destruct (proj2 (query_select_web aettable localaet servername level parser
                     ording_key query_map srv Hsrv HW) Hlevel)
    as (f & Hf & Hsel).
  exists f. split; [|split; [|exact Hsel]].
  - unfold table_get.
    replace (dict_get query_level_souported "W") with (Some web_find_row)
      by (vm_compute; reflexivity).
    rewrite Hf. reflexivity.
  - intros ->. unfold web_find_row in Hf. cbn [dict_get] in Hf.
    repeat (destruct (decide (_ = level)) in Hf; [discriminate Hf|]).
    discriminate Hf.
Qed.

Lemma query_prefers_web_witness :
  exists f,
    query_select (<["Both" := both_server]> node_table)
                 "me" "Both" "study" text_parser None [("StudyDate", "20180205")]
    = inr (CallWebFind f "BOTH" "both.example" "8080" (Some "token") None
                       text_parser "study" [("StudyDate", "20180205")]).
Proof.
  assert (Hsrv : (<["Both" := both_server]> node_table) !! "Both"
                 = Some both_server) by (vm_compute; reflexivity).
  assert (HW : "W" ∈ facilities both_server) by by_evaluation.
  assert (Hlevel : is_level "study") by by_evaluation.
  destruct (query_prefers_web (File:=string) (Record_:=string)
              (<["Both" := both_server]> node_table)
              "me" "Both" "study" text_parser None [("StudyDate", "20180205")]
              both_server Hsrv HW Hlevel)
    as (f & _ & _ & H).
  exists f. exact H.
Defined.



(** ** [Interface.__init__] *)







(** ** [Parser.tag_parser] *)

Lemma tag_step_lookup tags d0 e d1 k :
  tag_step tags d0 e = inr d1 -> k <> "PatientName" ->
  d1 !! k =
  match (if decide (keyword e = Some k)
         then element_text <$> find e "Value" else None) with
  | Some v => if in_list k tags then Some v else d0 !! k
  | None => d0 !! k
  end.
Proof.
  unfold tag_step, keyword. intros Hstep Hk.
  destruct (decide (element_get e "keyword" = Some "PatientName")) as [Hpn|Hpn].
  - rewrite Hpn in *.
    destruct (decide (Some "PatientName" = Some k)) as [[= <-]|_];
      [contradiction|].
    destruct (family_name e) as [val|]; [|discriminate].
    destruct (in_list "PatientName" tags);
      [destruct (find e "Value")|]; injection Hstep as <-;
      rewrite !lookup_insert_ne by congruence; reflexivity.
  - destruct (element_get e "keyword") as [tag|] eqn:Htag.
    + destruct (decide (Some tag = Some k)) as [[= ->]|Hne].
      * destruct (in_list k tags).
        -- destruct (find e "Value") as [val|]; injection Hstep as <-; cbn.
           ++ apply lookup_insert_eq.
           ++ reflexivity.
        -- injection Hstep as <-. destruct (find e "Value"); reflexivity.
      * assert (tag <> k) by congruence.
        destruct (in_list tag tags);
          [destruct (find e "Value")|]; injection Hstep as <-;
          rewrite ?lookup_insert_ne by assumption; reflexivity.
    + destruct (decide (None = Some k)); [discriminate|].
      injection Hstep as <-. reflexivity.
Qed.

Lemma tag_loop_lookup tags k es : forall d0 d,
  tag_loop tags d0 es = inr d -> k <> "PatientName" ->
  d !! k =
  if in_list k tags
  then match last (values_of k es) with
       | Some v => Some v
       | None => d0 !! k
       end
  else d0 !! k.
Proof.
  induction es as [|e rest IH]; intros d0 d Hloop Hk.
  - injection Hloop as <-. cbn. destruct (in_list k tags); reflexivity.
  - cbn [tag_loop] in Hloop.
    destruct (tag_step tags d0 e) as [err|d1] eqn:Hstep; [discriminate|].
    rewrite (IH d1 d Hloop Hk).
    rewrite (tag_step_lookup tags d0 e d1 k Hstep Hk).
    unfold values_of. cbn [omap list_omap]. fold (values_of k rest).
    destruct (in_list k tags); [|destruct (if decide _ then _ else _); reflexivity].
    destruct (if decide (keyword e = Some k)
              then element_text <$> find e "Value" else None) as [v|].
    + rewrite last_cons. destruct (last (values_of k rest)); reflexivity.
    + reflexivity.
Qed.

Lemma tag_step_keys tags d0 e d1 k :
  tag_step tags d0 e = inr d1 -> is_Some (d1 !! k) ->
  is_Some (d0 !! k)
  \/ ((k = "PatientName" \/ k ∈ tags) /\ keyword e = Some k).
Proof.
  unfold tag_step, keyword. intros Hstep Hin.
  destruct (decide (element_get e "keyword" = Some "PatientName")) as [Hpn|Hpn].
  - rewrite Hpn in *.
    destruct (family_name e) as [val|]; [|discriminate].
    destruct (decide (k = "PatientName")) as [->|Hk]; [right; tauto|].
    left. destruct (in_list "PatientName" tags);
      [destruct (find e "Value")|]; injection Hstep as <-;
      rewrite !lookup_insert_ne in Hin by congruence; exact Hin.
  - destruct (element_get e "keyword") as [tag|] eqn:Htag;
      [|injection Hstep as <-; left; exact Hin].
    unfold in_list in Hstep. case_bool_decide as Htags;
      [|injection Hstep as <-; left; exact Hin].
    destruct (find e "Value") as [val|];
      [|injection Hstep as <-; left; exact Hin].
    injection Hstep as <-.
    destruct (decide (tag = k)) as [->|Hne]; [right; tauto|].
    left. rewrite lookup_insert_ne in Hin by assumption. exact Hin.
Qed.

Lemma tag_loop_keys tags k es : forall d0 d,
  tag_loop tags d0 es = inr d -> is_Some (d !! k) ->
  is_Some (d0 !! k)
  \/ ((k = "PatientName" \/ k ∈ tags)
      /\ exists e, e ∈ es /\ keyword e = Some k).
Proof.
  induction es as [|e rest IH]; intros d0 d Hloop Hin.
  - injection Hloop as <-. left. exact Hin.
  - cbn [tag_loop] in Hloop.
    destruct (tag_step tags d0 e) as [err|d1] eqn:Hstep; [discriminate|].
    destruct (IH d1 d Hloop Hin) as [H1|(Hk & e' & He' & Hkw)].
    + destruct (tag_step_keys tags d0 e d1 k Hstep H1) as [H0|[Hk Hkw]];
        [left; exact H0|].
      right. split; [exact Hk|]. exists e. split; [left|exact Hkw].
    + right. split; [exact Hk|]. exists e'. split; [right; exact He'|exact Hkw].
Qed.

Lemma tag_step_ok tags d0 e :
  (exists d1, tag_step tags d0 e = inr d1) <->
  (keyword e = Some "PatientName" -> is_Some (family_name e)).
Proof.
  unfold tag_step, keyword.
  destruct (decide (element_get e "keyword" = Some "PatientName")) as [Hpn|Hpn].
  - rewrite Hpn. destruct (family_name e) as [val|].
    + split; [eauto|]. intros _.
      destruct (in_list "PatientName" tags);
        [destruct (find e "Value")|]; eauto.
    + split; [intros [? ?]; discriminate|].
      intros H. destruct (H eq_refl). discriminate.
  - split; [intros _ H; contradiction|]. intros _.
    destruct (element_get e "keyword") as [tag|]; [|eauto].
    destruct (in_list tag tags); [destruct (find e "Value")|]; eauto.
Qed.

Lemma tag_loop_ok tags es : forall d0,
  (exists d, tag_loop tags d0 es = inr d) <->
  Forall (fun e => keyword e = Some "PatientName" -> is_Some (family_name e)) es.
Proof.
  induction es as [|e rest IH]; intros d0; cbn [tag_loop].
  - split; [constructor|eauto].
  - rewrite Forall_cons. rewrite <- (tag_step_ok tags d0 e).
    destruct (tag_step tags d0 e) as [err|d1].
    + split; [intros [? ?]; discriminate|intros [[? ?] _]; discriminate].
    + rewrite IH. split; [eauto|tauto].
Qed.

(** X27.  Every key of the dictionary [tag_parser] returns is the keyword
    of a [DicomAttribute] child of the root, and is either one of the
    requested tags or [PatientName]. *)
Theorem tag_parser_keys (root : element) (tags : list string)
    (d : gmap string (option string)) (k : string) :
  tag_parser root tags = inr d -> is_Some (d !! k) ->
  (k = "PatientName" \/ k ∈ tags)
  /\ exists e, e ∈ findall root "DicomAttribute" /\ keyword e = Some k.
Proof.
  unfold tag_parser. intros Hd Hk.
  destruct (tag_loop_keys tags k _ ∅ d Hd Hk) as [H|H]; [|exact H].
  rewrite lookup_empty in H. destruct H. discriminate.
Qed.

(** X28.  [tag_parser] raises exactly when some [DicomAttribute] with the
    keyword [PatientName] lacks the [PersonName], [Alphabetic],
    [FamilyName] chain; a requested keyword that is absent, or whose
    attribute has no [Value], is no error. *)
Theorem tag_parser_returns_iff (root : element) (tags : list string) :
  (exists d, tag_parser root tags = inr d) <->
  Forall (fun e => keyword e = Some "PatientName" -> is_Some (family_name e))
         (findall root "DicomAttribute").
Proof. apply tag_loop_ok. Qed.

(** X29.  For a requested keyword other than [PatientName], the value in
    the dictionary [tag_parser] returns is the text of the [Value] of the
    last [DicomAttribute] with that keyword that has a [Value]; when there
    is none the keyword is not in the dictionary. *)
Theorem tag_parser_value (root : element) (tags : list string)
    (d : gmap string (option string)) (k : string) :
  tag_parser root tags = inr d -> k ∈ tags -> k <> "PatientName" ->
  d !! k = last (values_of k (findall root "DicomAttribute")).
Proof.
  unfold tag_parser. intros Hd Hin Hk.
  rewrite (tag_loop_lookup tags k _ ∅ d Hd Hk). unfold in_list.
  rewrite (bool_decide_eq_true_2 _ Hin), lookup_empty.
  destruct (last _); reflexivity.
Qed.

(** ** [_which] *)

Lemma is_executable_named h fpath :
  is_executable h fpath = true -> is_Some (executable_name h fpath).
Proof.
  unfold is_executable, executable_name. destruct (os h); [eauto| |discriminate].
  cbn. destruct (path_isfile h (dot_join fpath "exe")); [eauto|].
  destruct (path_isfile h (dot_join fpath "bat")); [eauto|discriminate].
Qed.

Lemma which_search_first h program before d after :
  Forall (fun p => is_executable h (path_join h (strip_quotes p) program)
                   = false) before ->
  is_executable h (path_join h (strip_quotes d) program) = true ->
  which_search h program (before ++ d :: after)
  = abspath h <$> executable_name h (path_join h (strip_quotes d) program).
Proof.
  intros Hbefore Hd. induction Hbefore as [|p before Hp _ IH]; cbn.
  - rewrite Hd. reflexivity.
  - rewrite Hp. exact IH.
Qed.

(** X30.  For a program name without directory part, [_which] returns the
    absolute path of the program in the first directory, in the order of
    [path_prepend], where it is executable: a directory of [path_prepend]
    that holds the program wins over every directory of [PATH], whatever
    [PATH] is. *)
Theorem which_prefers_prepended (h : paths) (program : string)
    (before after : list string) (d : string) :
  has_dirname h program = false ->
  Forall (fun p => is_executable h (path_join h (strip_quotes p) program)
                   = false) before ->
  is_executable h (path_join h (strip_quotes d) program) = true ->
  _which h program (Some (before ++ d :: after))
  = abspath h <$> executable_name h (path_join h (strip_quotes d) program)
  /\ is_Some (_which h program (Some (before ++ d :: after))).
Proof.
  intros Hdir Hbefore Hd. unfold _which. cbv zeta. rewrite Hdir. simpl default.
  rewrite <- app_assoc. cbn [app].
  rewrite (which_search_first h program before d _ Hbefore Hd).
  split; [reflexivity|].
  destruct (is_executable_named h _ Hd) as [name ->]. cbn. eauto.
Qed.

Lemma tag_parser_keys_witness :
  exists e, e ∈ findall study_document "DicomAttribute"
            /\ keyword e = Some "StudyDate".
Proof.
  apply (tag_parser_keys study_document ["StudyDate"; "StudyID"] study_tags
           "StudyDate").
  - vm_compute. reflexivity.
  - vm_compute. eauto.
Defined.

Lemma tag_parser_value_witness :
  study_tags !! "StudyID" = None /\ study_tags !! "StudyDate" = Some (Some "20180205").
Proof.
  split.
  - rewrite (tag_parser_value study_document ["StudyDate"; "StudyID"]
               study_tags "StudyID");
      [vm_compute; reflexivity | vm_compute; reflexivity | by_evaluation
      | discriminate].
  - rewrite (tag_parser_value study_document ["StudyDate"; "StudyID"]
               study_tags "StudyDate");
      [vm_compute; reflexivity | vm_compute; reflexivity | by_evaluation
      | discriminate].
Defined.

Lemma which_prefers_prepended_witness :
  _which (posix_paths ["/usr/local/bin/findscu"; "/usr/bin/findscu"]
                      "/usr/bin:/bin")
         "findscu" (Some (["/opt/ext"] ++ "/usr/local/bin" :: []))
  = Some "/usr/local/bin/findscu".
Proof.
  apply (which_prefers_prepended
           (posix_paths ["/usr/local/bin/findscu"; "/usr/bin/findscu"]
                        "/usr/bin:/bin")
           "findscu" ["/opt/ext"] [] "/usr/local/bin").
  - reflexivity.
  - repeat constructor.
  - vm_compute. reflexivity.
Defined.

Lemma fetch_never_reports_missing_facility_witness :
  fetch_select (File:=string) (Record_:=string)
               (<["Archive" := find_only_server]> node_table) "me" "Archive"
               "series" "./" [("SeriesInstanceUID", "1.2.3")]
  <> inl (QIError (NoRetrieveFacility "Archive"))
  /\ fetch_select (File:=string) (Record_:=string)
                  (<["Archive" := find_only_server]> node_table) "me" "Archive"
                  "series" "./" [("SeriesInstanceUID", "1.2.3")]
     = inl (KeyError None).
Proof.
  split.
  - apply fetch_never_reports_missing_facility.
  - vm_compute. reflexivity.
Defined.
